(** * astro-image-exif-loader: the tag projector, the value serializer,
      the change detector and the image importer

    A shallow embedding of [package/src/utils.ts], [package/src/loader.ts]
    and [package/src/importer.ts].  JavaScript numbers are IEEE 754 binary64
    values, so they are primitive floats here; objects used as dictionaries
    are finite maps keyed by strings; code that can throw lives in the
    [completion] monad, with [try_catch] for the source's try blocks. *)

From Stdlib Require Import Floats Ascii String.
From stdpp Require Import gmap strings list fin_maps fin_sets.

Set Default Proof Using "Type".
Open Scope string_scope.

(** ** Completions: a statement either finishes normally or throws *)

Inductive completion (A : Type) : Type :=
| Normal (a : A)
| Thrown (e : string).
Arguments Normal {A} a.
Arguments Thrown {A} e.

#[global] Instance completion_ret : MRet completion := λ A a, Normal a.
#[global] Instance completion_bind : MBind completion := λ A B f c,
  match c with
  | Normal a => f a
  | Thrown e => Thrown e
  end.

(** [try { body } catch { handler }] *)
Definition try_catch {A} (body : completion A) (handler : string → completion A)
  : completion A :=
  match body with
  | Normal a => Normal a
  | Thrown e => handler e
  end.

(** [xs.map(f)] for a callback that may throw: elements are visited from
    the left and the first exception ends the call. *)
Definition mapM {A B} (f : A → completion B) : list A → completion (list B) :=
  fix go (xs : list A) : completion (list B) :=
    match xs with
    | [] => Normal []
    | x :: xs' =>
        match f x with
        | Normal y =>
            match go xs' with
            | Normal ys => Normal (y :: ys)
            | Thrown e => Thrown e
            end
        | Thrown e => Thrown e
        end
    end.

Definition returns {A} (c : completion A) : Prop := ∃ a, c = Normal a.

(** ** Values of the metadata reader

    A tag value is a JSON scalar, a [Date], an array, or some other object
    (a date-time class of the reader, a binary field, a struct).  Of such an
    object the serializer observes four things only, and the constructor
    records exactly those:
    - [toDate]: [None] when [typeof value.toDate] is not ["function"];
      otherwise what the call does, throw ([Raises]) or return a value;
    - [valueOf]: [None] when [typeof value.valueOf] is not ["function"];
      otherwise what the call returns, the receiver itself ([This], as the
      inherited [Object.prototype.valueOf] does) or some other value
      ([Other]); the reader's classes define no [valueOf] that throws;
    - its properties, of which [num] and [den] are read;
    - [text]: the string [String(value)] produces for it.
    A [Date] carries the result of [toISOString()], absent when the time
    value is invalid (the call then throws a RangeError), and its [text].
    Values on which a property read, [valueOf()] or [String(value)] throws
    are not among these; [jsvalue] and the module [Any] below have them. *)

Inductive call (V : Type) : Type :=
| Raises (e : string)
| Returns (v : V).
Arguments Raises {V} e.
Arguments Returns {V} v.

Inductive receiver_or (V : Type) : Type :=
| This
| Other (v : V).
Arguments This {V}.
Arguments Other {V} v.

Inductive value : Type :=
| VNull
| VUndefined
| VString (s : string)
| VNumber (x : float)
| VBoolean (b : bool)
| VDate (iso : option string) (text : string)
| VArray (elems : list value)
| VObject (toDate : option (call value))
          (valueOf : option (receiver_or value))
          (props : list (string * value)) (text : string).

(** What the serializer returns: [null], a scalar, or an array of those. *)
Inductive sval : Type :=
| SNull
| SString (s : string)
| SNumber (x : float)
| SBoolean (b : bool)
| SArray (elems : list sval).

Inductive jstype : Type :=
| TUndefined | TObject | TString | TNumber | TBoolean.

Definition typeof (v : value) : jstype :=
  match v with
  | VUndefined => TUndefined
  | VString _ => TString
  | VNumber _ => TNumber
  | VBoolean _ => TBoolean
  | VNull | VDate _ _ | VArray _ | VObject _ _ _ _ => TObject
  end.

(** [value.name] on an object's property list; a missing name reads as
    [undefined]. *)
Fixpoint get (props : list (string * value)) (name : string) : value :=
  match props with
  | [] => VUndefined
  | (k, v) :: rest => if String.eqb k name then v else get rest name
  end.

(** [d.toISOString()]: a valid [Date] gives its ISO string, an invalid one
    throws, and on anything else the method does not exist. *)
Definition toISOString (d : value) : completion string :=
  match d with
  | VDate (Some iso) _ => Normal iso
  | VDate None _ => Thrown "RangeError: Invalid time value"
  | _ => Thrown "TypeError: toISOString is not a function"
  end.

Module Utils.

(** [utils.ts], [FILESYSTEM_LEAKY_TAGS] *)
Definition FILESYSTEM_LEAKY_TAGS : list string :=
  [ "Directory"; "FileName"; "FileModifyDate"; "FileAccessDate";
    "FileInodeChangeDate"; "FilePermissions"; "FileType";
    "FileTypeExtension"; "MIMEType"; "ExifToolVersion"; "SourceFile" ].

(** [utils.ts], [EXIF_PRESET_MAPPINGS]: an object keyed by preset name. *)
Definition EXIF_PRESET_MAPPINGS : gmap string (list string) :=
  list_to_map
    [ ("basic", [ "FileSize"; "ImageWidth"; "ImageHeight" ]);
      ("camera",
        [ "Make"; "Model"; "LensModel"; "Lens"; "LensID"; "LensInfo";
          "LensSerialNumber"; "SerialNumber"; "BodySerialNumber";
          "CameraSerialNumber"; "LensMake"; "MaxAperture"; "MinFocalLength";
          "MaxFocalLength" ]);
      ("exposure",
        [ "ISO"; "FNumber"; "ExposureTime"; "ShutterSpeed"; "FocalLength";
          "FocalLengthIn35mmFormat"; "Flash"; "WhiteBalance"; "ExposureMode";
          "MeteringMode" ]);
      ("datetime", [ "DateTimeOriginal"; "CreateDate"; "DateTime" ]);
      ("location",
        [ "GPSLatitude"; "GPSLongitude"; "GPSAltitude"; "Country"; "State";
          "City"; "Location"; "Sub-location"; "GPSAreaInformation";
          "Country-PrimaryLocationCode"; "Province-State" ]);
      ("technical",
        [ "ColorSpace"; "Orientation"; "Software"; "SceneType";
          "SceneCaptureType" ]);
      ("metadata",
        [ "Artist"; "Copyright"; "ImageDescription"; "Keywords"; "Title";
          "Subject" ]) ].

(** [utils.ts], [toSerializable].  The source is a chain of tests; each
    constructor below is met by exactly one of them, in the source's order:
    null/undefined, the three scalar types, [Date] or an object with a
    [toDate] function (inside the try block), arrays, and for the remaining
    objects [valueOf], then [num]/[den], then [String(value)]. *)
Fixpoint toSerializable (value : value) : completion sval :=
  match value with
  | VNull | VUndefined => Normal SNull
  | VString s => Normal (SString s)
  | VNumber x => Normal (SNumber x)
  | VBoolean b => Normal (SBoolean b)
  | VDate _ text =>
      try_catch
        (iso ← toISOString value; Normal (SString iso))
        (λ _, Normal (SString text))
  | VArray elems =>
      rs ← mapM toSerializable elems; Normal (SArray rs)
  | VObject toDate valueOf props text =>
      match toDate with
      | Some toDate_call =>
          try_catch
            (d ← match toDate_call with
                 | Raises e => Thrown e
                 | Returns d => Normal d
                 end;
             iso ← toISOString d;
             Normal (SString iso))
            (λ _, Normal (SString text))
      | None =>
          let rational_or_text :=
            match get props "num", get props "den" with
            | VNumber num, VNumber den => Normal (SNumber (num / den))
            | _, _ => Normal (SString text)
            end in
          match valueOf with
          | Some (Other (VNumber x)) => Normal (SNumber x)
          | Some (Other (VString s)) => Normal (SString s)
          | Some (Other _) | Some This | None => rational_or_text
          end
      end
  end.

(** The output record is one object: the base fields, the curated tags
    and the nested raw record are all properties of it, so a field is a
    serialized value or a nested dictionary of serialized values. *)
Inductive field : Type :=
| Scalar (v : sval)
| Nested (o : gmap string sval).

Definition nullish (v : value) : bool :=
  match v with
  | VNull | VUndefined => true
  | _ => false
  end.

(** [utils.ts], [buildImageData].  [tags] is the reader's record,
    [tagsToExtract] is [None] for the source's [null] (extract everything).
    The names are those of tags: what [tags[tagName]] and
    [data[tagName] = v] do for a name of [Object.prototype] is in
    [Any.buildImageData] below. *)
Definition buildImageData
    (tags : gmap string value) (fileName mtime : string) (fileSize : float)
    (tagsToExtract : option (gset string)) (excludeTags : gset string)
    (includeRawExif : bool) : completion (gmap string field) :=
  let data : gmap string field :=
    <["mtime" := Scalar (SString mtime)]>
      (<["fileName" := Scalar (SString fileName)]> ∅) in
  data ←
    match tagsToExtract with
    | None =>
        (* for (const [tagName, tagValue] of Object.entries(tags)) *)
        data ← map_fold
          (λ tagName tagValue acc,
             data ← acc;
             if negb (nullish tagValue) && bool_decide (tagName ∉ excludeTags)
             then v ← toSerializable tagValue;
                  Normal (<[tagName := Scalar v]> data)
             else Normal data)
          (Normal data) tags;
        Normal (<["FileSize" := Scalar (SNumber fileSize)]> data)
    | Some tagsToExtract =>
        if bool_decide (0 < size tagsToExtract) then
          (* for (const tagName of tagsToExtract) *)
          data ← set_fold
            (λ tagName acc,
               data ← acc;
               if bool_decide (tagName ∉ excludeTags) then
                 let tagValue := default VUndefined (tags !! tagName) in
                 if negb (nullish tagValue)
                 then v ← toSerializable tagValue;
                      Normal (<[tagName := Scalar v]> data)
                 else Normal data
               else Normal data)
            (Normal data) tagsToExtract;
          if bool_decide ("FileSize" ∈ tagsToExtract)
             && bool_decide ("FileSize" ∉ excludeTags)
          then Normal (<["FileSize" := Scalar (SNumber fileSize)]> data)
          else Normal data
        else Normal data
    end;
  if includeRawExif then
    rawExif ← map_fold
      (λ tagName tagValue acc,
         rawExif ← acc;
         if negb (nullish tagValue)
         then v ← toSerializable tagValue;
              Normal (<[tagName := v]> rawExif)
         else Normal rawExif)
      (Normal ∅) tags;
    Normal (<["rawExif" := Nested rawExif]> data)
  else Normal data.

End Utils.

Import Utils.

(** The result of [toSerializable] when it returns one. *)
Definition serialized (v : value) : sval :=
  match toSerializable v with
  | Normal r => r
  | Thrown _ => SNull
  end.

(** ** Strings and paths *)

(** [s.replace(/\\/g, "/")]: every backslash becomes a slash. *)
Fixpoint replace_backslashes (s : string) : string :=
  match s with
  | EmptyString => EmptyString
  | String c s' =>
      String (if Ascii.eqb c "\"%char then "/"%char else c)
             (replace_backslashes s')
  end.

Fixpoint drop_chars (n : nat) (s : string) : string :=
  match n, s with
  | O, _ => s
  | S n', String _ s' => drop_chars n' s'
  | S _, EmptyString => EmptyString
  end.

(** [s.replace(pat, rep)] with a string pattern: the first occurrence only;
    the empty pattern matches at the start. *)
Fixpoint replace_first (pat rep s : string) : string :=
  if String.prefix pat s then rep ++ drop_chars (String.length pat) s
  else match s with
       | EmptyString => EmptyString
       | String c s' => String c (replace_first pat rep s')
       end.

(** [s.startsWith(p)] *)
Definition startsWith (s p : string) : bool := String.prefix p s.

(** Node's [path] module, an external collaborator of the loader. *)
Class PathApi : Type := {
  pathResolve : string → string → string;
  relative : string → string → string;
  basename : string → string;
  extname : string → string;
}.

(** ** The host: file system, metadata reader, digest, glob matcher *)

Record Stats : Type := {
  stats_mtime : string;   (* stats.mtime.toISOString() *)
  stats_size : float;     (* stats.size *)
}.

Class Host : Type := {
  stat : string → completion Stats;
  exiftool_read : string → completion (gmap string value);
  generateDigest : gmap string field → string;
  picomatch : list string → string → bool;
}.

(** ** The record store of the host framework *)

Record entry : Type := {
  entry_id : string;
  entry_data : gmap string field;
  entry_digest : string;
  entry_filePath : string;
}.

(** [store.set(entry)]: an entry whose digest equals the stored one is left
    alone and the call answers [false]. *)
Definition store_set (e : entry) (store : gmap string entry)
  : gmap string entry * bool :=
  match store !! entry_id e with
  | Some old =>
      if String.eqb (entry_digest old) (entry_digest e) then (store, false)
      else (<[entry_id e := e]> store, true)
  | None => (<[entry_id e := e]> store, true)
  end.

(** What the logger is told. *)
Inductive log : Type :=
| LogUpdated (filePath : string)
| LogRemoved (filePath : string)
| LogProcessing (rel : string)
| LogReadFailed (id msg : string)
| LogProcessed (id : string)
| LogNoChanges (id : string)
| LogFailed (filePath msg : string).

(** How a call of [processImage] ends: at the early [return] of the change
    check, after [store.set], or in the outer [catch]. *)
Inductive outcome : Type :=
| Skipped
| Stored (success : bool)
| Failed (msg : string).

(** [existingEntry && existingEntry.data.mtime === mtime] *)
Definition unchanged (existingEntry : option entry) (mtime : string) : bool :=
  match existingEntry with
  | Some e =>
      match entry_data e !! "mtime" with
      | Some (Scalar (SString stored)) => String.eqb stored mtime
      | _ => false
      end
  | None => false
  end.

(** The loader's options, every one optional. *)
Record ExifDirectoryOptions : Type := {
  pattern : list string;
  base : option string;
}.

Record ExifLoaderOptions : Type := {
  imagesDir : option ExifDirectoryOptions;
  presets : option (list string);
  tags : option (list string);
  excludeTags : option (list string);
  extractAll : option bool;
  includeRawExif : option bool;
}.

(** What [createExifLoader] computes once and its callbacks close over. *)
Record Loader : Type := {
  loader_imagesDir : ExifDirectoryOptions;
  loader_tagsToExtract : option (gset string);
  loader_excludeTagsSet : gset string;
  loader_includeRawExif : bool;
}.

(** [loader.ts], [determineTagsToExtract], for preset names that are keys
    of the table or unknown to every object; the names [Object.prototype]
    knows are in [Any.determineTagsToExtract] below. *)
Definition determineTagsToExtract (presets tags : list string) : gset string :=
  let tagsSet : gset string :=
    foldl (λ tagsSet preset,
             match EXIF_PRESET_MAPPINGS !! preset with
             | Some preset_tags =>
                 foldl (λ tagsSet tag, {[tag]} ∪ tagsSet) tagsSet preset_tags
             | None => tagsSet
             end)
          ∅ presets in
  foldl (λ tagsSet tag, {[tag]} ∪ tagsSet) tagsSet tags.

(** [loader.ts], [createExifLoader]: the destructuring defaults, then
    [tagsToExtract] and [excludeTagsSet]. *)
Definition createExifLoader (options : ExifLoaderOptions) : Loader :=
  let imagesDir :=
    default {| pattern := ["**/*"]; base := Some "src/content/images" |}
            (imagesDir options) in
  let presets := default [] (presets options) in
  let tags := default [] (tags options) in
  let excludeTags := default [] (excludeTags options) in
  let extractAll := default false (extractAll options) in
  let includeRawExif := default false (includeRawExif options) in
  {| loader_imagesDir := imagesDir;
     loader_tagsToExtract :=
       if extractAll then None
       else Some (determineTagsToExtract presets tags);
     loader_excludeTagsSet :=
       list_to_set (FILESYSTEM_LEAKY_TAGS ++ excludeTags);
     loader_includeRawExif := includeRawExif |}.

(** ** The loader as first written: records keyed by the path below [src] *)

Module LoaderV1.
Section WithHost.
Context {paths : PathApi} {host : Host}.

(** [loader.ts], [processImage] (lines 167-225). *)
Definition processImage
    (filePath : string) (store : gmap string entry) (rootPath : string)
    (tagsToExtract : option (gset string)) (excludeTags : gset string)
    (includeRawExif : bool)
  : gmap string entry * outcome * list log :=
  let srcRoot := pathResolve rootPath "src" in
  let relativePath := replace_backslashes (relative srcRoot filePath) in
  let fileNameOnly := basename filePath in
  let id := relativePath in
  match stat filePath with
  | Thrown msg => (store, Failed msg, [LogFailed filePath msg])
  | Normal stats =>
      let mtime := stats_mtime stats in
      let existingEntry := store !! id in
      if unchanged existingEntry mtime then (store, Skipped, [])
      else
        let '(tags, warned) :=
          match exiftool_read filePath with
          | Normal tags => (tags, [])
          | Thrown msg => (∅, [LogReadFailed id msg])
          end in
        match buildImageData tags fileNameOnly mtime (stats_size stats)
                tagsToExtract excludeTags includeRawExif with
        | Thrown msg => (store, Failed msg, (warned ++ [LogFailed filePath msg])%list)
        | Normal imageData =>
            let digest := generateDigest imageData in
            let '(store', success) :=
              store_set {| entry_id := id; entry_data := imageData;
                           entry_digest := digest;
                           entry_filePath := relative rootPath filePath |}
                        store in
            (store', Stored success,
             (warned ++ [if success then LogProcessed id else LogNoChanges id])%list)
        end
  end.

(** [matches] of the watcher callbacks; [pathResolve(p)] with one argument
    is [pathResolve p ""], empty segments being ignored. *)
Definition matches (patterns : list string) (basePath changed : string) : bool :=
  let absChanged := pathResolve changed "" in
  let absBase := pathResolve basePath "" in
  if negb (String.eqb absChanged absBase
           || startsWith absChanged (absBase ++ "/"))
  then false
  else picomatch patterns (relative basePath changed).

Definition basePath_of (loader : Loader) (rootPath : string) : string :=
  pathResolve rootPath
    (match base (loader_imagesDir loader) with
     | Some b => if String.eqb b "" then "src/content/images" else b
     | None => "src/content/images"
     end).

(** The identifier the [unlink] callback deletes (line 158). *)
Definition unlink_id (filePath : string) : string := basename filePath.

(** The identifier [processImage] stores under (lines 178-181). *)
Definition processImage_id (rootPath filePath : string) : string :=
  replace_backslashes (relative (pathResolve rootPath "src") filePath).

Definition onAddOrChange
    (loader : Loader) (rootPath filePath : string) (store : gmap string entry)
  : gmap string entry * list log :=
  if negb (matches (pattern (loader_imagesDir loader))
                   (basePath_of loader rootPath) filePath)
  then (store, [])
  else
    let '(store', _, logs) :=
      processImage filePath store rootPath (loader_tagsToExtract loader)
        (loader_excludeTagsSet loader) (loader_includeRawExif loader) in
    (store', LogUpdated filePath :: logs).

Definition onUnlink
    (loader : Loader) (rootPath filePath : string) (store : gmap string entry)
  : gmap string entry * list log :=
  if negb (matches (pattern (loader_imagesDir loader))
                   (basePath_of loader rootPath) filePath)
  then (store, [])
  else
    let id := basename filePath in
    (delete id store, [LogRemoved filePath]).

End WithHost.
End LoaderV1.

(** ** The loader as revised: records keyed by the path below the image
       directory, without the extension *)

Module LoaderV2.
Section WithHost.
Context {paths : PathApi} {host : Host}.

(** [loader.ts], [processImage] (lines 505-590); [basePath] is optional. *)
Definition processImage
    (filePath : string) (store : gmap string entry) (rootPath : string)
    (tagsToExtract : option (gset string)) (excludeTags : gset string)
    (includeRawExif : bool) (basePath : option string)
  : gmap string entry * outcome * list log :=
  let relFromBase :=
    match basePath with
    | Some b =>
        if String.eqb b "" then replace_backslashes (relative rootPath filePath)
        else replace_backslashes (relative b filePath)
    | None => replace_backslashes (relative rootPath filePath)
    end in
  let srcRoot := pathResolve rootPath "src" in
  let insideSrc :=
    startsWith filePath (srcRoot ++ "/") || String.eqb filePath srcRoot in
  let srcPath :=
    if insideSrc then replace_backslashes (relative srcRoot filePath) else "" in
  let fileNameOnly := basename relFromBase in
  let id := replace_first (extname relFromBase) "" relFromBase in
  match stat filePath with
  | Thrown msg => (store, Failed msg, [LogFailed filePath msg])
  | Normal stats =>
      let mtime := stats_mtime stats in
      let existingEntry := store !! id in
      if unchanged existingEntry mtime then (store, Skipped, [])
      else
        let '(tags, warned) :=
          match exiftool_read filePath with
          | Normal tags => (tags, [])
          | Thrown msg => (∅, [LogReadFailed relFromBase msg])
          end in
        match buildImageData tags fileNameOnly mtime (stats_size stats)
                tagsToExtract excludeTags includeRawExif with
        | Thrown msg =>
            (store, Failed msg,
             (LogProcessing relFromBase :: warned ++ [LogFailed filePath msg])%list)
        | Normal imageData =>
            let imageData := <["srcPath" := Scalar (SString srcPath)]> imageData in
            let digest := generateDigest imageData in
            let '(store', success) :=
              store_set {| entry_id := id; entry_data := imageData;
                           entry_digest := digest;
                           entry_filePath := relative rootPath filePath |}
                        store in
            (store', Stored success,
             (LogProcessing relFromBase :: warned ++
                [if success then LogProcessed relFromBase
                 else LogNoChanges relFromBase])%list)
        end
  end.

(** The identifier the [unlink] callback deletes (lines 495-496). *)
Definition unlink_id (basePath filePath : string) : string :=
  let rel := relative basePath filePath in
  replace_first (extname rel) "" rel.

(** The identifier [processImage] stores under (lines 518-529); the loader
    always passes its [basePath]. *)
Definition processImage_id
    (rootPath : string) (basePath : option string) (filePath : string)
  : string :=
  let relFromBase :=
    match basePath with
    | Some b =>
        if String.eqb b "" then replace_backslashes (relative rootPath filePath)
        else replace_backslashes (relative b filePath)
    | None => replace_backslashes (relative rootPath filePath)
    end in
  replace_first (extname relFromBase) "" relFromBase.

Definition onUnlink
    (loader : Loader) (rootPath filePath : string) (store : gmap string entry)
  : gmap string entry * list log :=
  let basePath := LoaderV1.basePath_of loader rootPath in
  if negb (LoaderV1.matches (pattern (loader_imagesDir loader)) basePath filePath)
  then (store, [])
  else
    let rel := relative basePath filePath in
    let id := replace_first (extname rel) "" rel in
    (delete id store, [LogRemoved filePath]).

End WithHost.
End LoaderV2.

(** ** The image importer *)

(** The failure the importer raises when nothing can be imported. *)
Definition ONLY_UNDER_SRC : string :=
  "astro-image-exif-loader: The importer only works for images under /src.".

(** What the importer prints with [console.warn]; they are listed entry by
    entry, the interleaving of the asynchronous callbacks is not modelled. *)
Inductive warning : Type :=
| WarnEntriesMissing (n : nat)
| WarnEntriesOutside (n : nat)
| WarnEntryMissing (id : string)
| WarnImportFailed (imagePath err : string)
| WarnNoImporter (imagePath : string).

(** [!s] for [s : string | undefined] *)
Definition falsy (s : option string) : bool :=
  match s with
  | None => true
  | Some s => String.eqb s ""
  end.

Section ImporterTypes.
(** The entries' data and the image modules are opaque to the importer. *)
Context {Data ImageMetadata : Type}.
(** [import.meta.glob("/src/**/*")]: for a path, no importer, or an
    importer whose call fails or yields [mod?.default ?? null]. *)
Context (files : string → option (completion (option ImageMetadata))).

Record Entry : Type := {
  id : string;
  collection : string;
  data : Data;
  filePath : option string;
}.

Record ImportedExifCollectionEntry : Type := {
  imported_id : string;
  imported_collection : string;
  imported_data : Data;
  defaultImport : option ImageMetadata;
}.

Definition with_import (entry : Entry) (i : option ImageMetadata)
  : ImportedExifCollectionEntry :=
  {| imported_id := id entry; imported_collection := collection entry;
     imported_data := data entry; defaultImport := i |}.

(** The tail shared by both importers: look the path up in [files] and
    import it, warning instead of failing. *)
Definition import_module (imagePath : string)
  : list warning * option ImageMetadata :=
  match files imagePath with
  | Some importer =>
      match importer with
      | Normal default_ => ([], default_)
      | Thrown err => ([WarnImportFailed imagePath err], None)
      end
  | None => ([WarnNoImporter imagePath], None)
  end.

(** [Promise.all(entries.map(f))] for callbacks that warn and never reject. *)
Definition map_warn {A B} (f : A → list warning * B) (xs : list A)
  : list warning * list B :=
  (concat ((λ x, (f x).1) <$> xs), (λ x, (f x).2) <$> xs).

End ImporterTypes.

Arguments Entry : clear implicits.
Arguments ImportedExifCollectionEntry : clear implicits.

(** [importer.ts], [imageImporter] keyed on [data.srcPath]. *)
Module ImporterV1.
Section WithFiles.
Context {Data ImageMetadata : Type}.
(** [srcPath d] is [d?.srcPath], typed [string | undefined] by the source. *)
Context (srcPath : Data → option string).
Context (files : string → option (completion (option ImageMetadata))).
Abbreviation Entry := (Entry Data).
Abbreviation ImportedExifCollectionEntry :=
  (ImportedExifCollectionEntry Data ImageMetadata).

Definition lacks (e : Entry) : bool := falsy (srcPath (data e)).

Definition import_entry (entry : Entry)
  : list warning * ImportedExifCollectionEntry :=
  let relPath := srcPath (data entry) in
  if falsy relPath then
    ([WarnEntryMissing (id entry)], with_import entry None)
  else
    let relPath := default "" relPath in
    let imagePath :=
      if startsWith relPath "/" then "/" ++ drop_chars 1 relPath
      else "/src/" ++ relPath in
    let '(ws, defaultImport) := import_module files imagePath in
    (ws, with_import entry defaultImport).

Definition imageImporter (entries : list Entry)
  : list warning * completion (list ImportedExifCollectionEntry) :=
  let missing := filter (λ e, lacks e = true) entries in
  if Nat.eqb (length missing) (length entries) then
    ([], Thrown ONLY_UNDER_SRC)
  else
    let warned :=
      if Nat.ltb 0 (length missing)
      then [WarnEntriesMissing (length missing)] else [] in
    let '(ws, results) := map_warn import_entry entries in
    ((warned ++ ws)%list, Normal results).

End WithFiles.
End ImporterV1.

(** [importer.ts] as revised, keyed on [entry.filePath]; it also accepts a
    single entry or [undefined]. *)
Module ImporterV2.
Section WithPaths.
Context {Data ImageMetadata : Type}.
Context (files : string → option (completion (option ImageMetadata))).
Context {paths : PathApi}.
Abbreviation Entry := (Entry Data).
Abbreviation ImportedExifCollectionEntry :=
  (ImportedExifCollectionEntry Data ImageMetadata).
(** [process.cwd()] *)
Context (cwd : string).

Inductive input : Type :=
| Undefined
| One (entry : Entry)
| Many (entries : list Entry).

Inductive output : Type :=
| Null
| Single (result : option ImportedExifCollectionEntry)
| Array (results : list ImportedExifCollectionEntry).

Definition insideSrc (filePath : string) : bool :=
  let rootPath := cwd in
  let srcRoot := pathResolve rootPath "src" in
  let fullPath := pathResolve rootPath filePath in
  startsWith fullPath (srcRoot ++ "/") || String.eqb fullPath srcRoot.

(** The predicate of [outsideSrc = entries.filter(...)] *)
Definition outside (entry : Entry) : bool :=
  if falsy (filePath entry) then true
  else negb (insideSrc (default "" (filePath entry))).

Definition import_entry (entry : Entry)
  : list warning * ImportedExifCollectionEntry :=
  if falsy (filePath entry) then
    ([WarnEntryMissing (id entry)], with_import entry None)
  else
    let filePath := default "" (filePath entry) in
    if negb (insideSrc filePath) then ([], with_import entry None)
    else
      let rootPath := cwd in
      let srcRoot := pathResolve rootPath "src" in
      let fullPath := pathResolve rootPath filePath in
      let srcRelativePath := replace_backslashes (relative srcRoot fullPath) in
      let imagePath := "/src/" ++ srcRelativePath in
      let '(ws, defaultImport) := import_module files imagePath in
      (ws, with_import entry defaultImport).

(** The records a call asks about: none for [undefined]. *)
Definition requested (entriesOrEntry : input) : option (list Entry) :=
  match entriesOrEntry with
  | Undefined => None
  | One entry => Some [entry]
  | Many entries => Some entries
  end.

Definition imageImporter (entriesOrEntry : input)
  : list warning * completion output :=
  match entriesOrEntry with
  | Undefined => ([], Normal Null)
  | _ =>
      let isArray := match entriesOrEntry with Many _ => true | _ => false end in
      let entries := default [] (requested entriesOrEntry) in
      let outsideSrc := filter (λ e, outside e = true) entries in
      if Nat.eqb (length outsideSrc) (length entries) then
        ([], Thrown ONLY_UNDER_SRC)
      else
        let warned :=
          if Nat.ltb 0 (length outsideSrc)
          then [WarnEntriesOutside (length outsideSrc)] else [] in
        let '(ws, results) := map_warn import_entry entries in
        ((warned ++ ws)%list,
         Normal (if isArray then Array results else Single (head results)))
  end.

End WithPaths.
End ImporterV2.

(** ** The rest of the loader: the first pass of [load] and the revised
       watcher callback *)

(** A serialized value read back as a value of the reader. *)
Fixpoint of_sval (s : sval) : value :=
  match s with
  | SNull => VNull
  | SString x => VString x
  | SNumber x => VNumber x
  | SBoolean b => VBoolean b
  | SArray elems => VArray (of_sval <$> elems)
  end.

(** [c] occurs in [s]. *)
Fixpoint occurs (c : ascii) (s : string) : bool :=
  match s with
  | EmptyString => false
  | String c' s' => Ascii.eqb c' c || occurs c s'
  end.

(** [data?.srcPath] on a stored record's data, typed [string | undefined]
    as the importer's cast has it. *)
Definition srcPath_of (data : gmap string field) : option string :=
  match data !! "srcPath" with
  | Some (Scalar (SString s)) => Some s
  | _ => None
  end.

(** What [load] tells the logger: its own three messages and those of the
    [processImage] calls. *)
Inductive load_log : Type :=
| LoadStarted (patterns : list string) (basePath : string)
| LoadNoImages (basePath : string) (patterns : list string)
| LoadGlobError (msg : string)
| LoadFile (l : log).

Module LoadV1.
Section WithHost.
Context {paths : PathApi} {host : Host}.

(** [loader.ts], [load] (lines 68-121), up to the registration of the
    watcher callbacks; [globbed] is what [tinyglob] answers. *)
Definition load
    (loader : Loader) (rootPath : string) (globbed : completion (list string))
    (store : gmap string entry) : gmap string entry * list load_log :=
  let basePath := LoaderV1.basePath_of loader rootPath in
  let patterns := pattern (loader_imagesDir loader) in
  let '(store', logs) :=
    match globbed with
    | Thrown msg => (store, [LoadGlobError msg])
    | Normal files =>
        foldl
          (λ '(store, logs) rel,
             let abs := pathResolve basePath rel in
             let '(store', _, l) :=
               LoaderV1.processImage abs store rootPath
                 (loader_tagsToExtract loader) (loader_excludeTagsSet loader)
                 (loader_includeRawExif loader) in
             (store', (logs ++ (LoadFile <$> l))%list))
          (store,
           if Nat.eqb (length files) 0
           then [LoadNoImages basePath patterns] else [])
          files
    end in
  (store', LoadStarted patterns basePath :: logs).

End WithHost.
End LoadV1.

Module LoadV2.
Section WithHost.
Context {paths : PathApi} {host : Host}.

(** [loader.ts], [load] of the revised loader (lines 403-457). *)
Definition load
    (loader : Loader) (rootPath : string) (globbed : completion (list string))
    (store : gmap string entry) : gmap string entry * list load_log :=
  let basePath := LoaderV1.basePath_of loader rootPath in
  let patterns := pattern (loader_imagesDir loader) in
  let '(store', logs) :=
    match globbed with
    | Thrown msg => (store, [LoadGlobError msg])
    | Normal files =>
        foldl
          (λ '(store, logs) rel,
             let abs := pathResolve basePath rel in
             let '(store', _, l) :=
               LoaderV2.processImage abs store rootPath
                 (loader_tagsToExtract loader) (loader_excludeTagsSet loader)
                 (loader_includeRawExif loader) (Some basePath) in
             (store', (logs ++ (LoadFile <$> l))%list))
          (store,
           if Nat.eqb (length files) 0
           then [LoadNoImages basePath patterns] else [])
          files
    end in
  (store', LoadStarted patterns basePath :: logs).

(** [onAddOrChange] of the revised loader (lines 475-489). *)
Definition onAddOrChange
    (loader : Loader) (rootPath filePath : string) (store : gmap string entry)
  : gmap string entry * list log :=
  let basePath := LoaderV1.basePath_of loader rootPath in
  if negb (LoaderV1.matches (pattern (loader_imagesDir loader)) basePath filePath)
  then (store, [])
  else
    let '(store', _, logs) :=
      LoaderV2.processImage filePath store rootPath
        (loader_tagsToExtract loader) (loader_excludeTagsSet loader)
        (loader_includeRawExif loader) (Some basePath) in
    (store', LogUpdated filePath :: logs).

End WithHost.
End LoadV2.

(** ** Node's POSIX path functions on absolute paths without [.] and [..]
       segments, to run the loader on concrete paths *)

Module Posix.

Fixpoint split_slash (current s : string) : list string :=
  match s with
  | EmptyString => [current]
  | String c s' =>
      if Ascii.eqb c "/"%char then current :: split_slash "" s'
      else split_slash (current ++ String c "") s'
  end.

Definition segments (p : string) : list string :=
  filter (λ x, x ≠ "") (split_slash "" p).

Definition join (xs : list string) : string := String.concat "/" xs.

Definition resolve (from to : string) : string :=
  if startsWith to "/" then "/" ++ join (segments to)
  else "/" ++ join (segments from ++ segments to)%list.

Fixpoint strip_common (xs ys : list string) : list string * list string :=
  match xs, ys with
  | x :: xs', y :: ys' =>
      if String.eqb x y then strip_common xs' ys' else (xs, ys)
  | _, _ => (xs, ys)
  end.

Definition relative (from to : string) : string :=
  let '(up, down) := strip_common (segments from) (segments to) in
  join (map (λ _, "..") up ++ down)%list.

Definition basename (p : string) : string := List.last (segments p) "".

Fixpoint last_dot_suffix (s : string) : option string :=
  match s with
  | EmptyString => None
  | String c s' =>
      match last_dot_suffix s' with
      | Some e => Some e
      | None => if Ascii.eqb c "."%char then Some s else None
      end
  end.

Definition extname (p : string) : string :=
  match basename p with
  | EmptyString => ""
  | String _ rest => default "" (last_dot_suffix rest)
  end.

Definition api : PathApi :=
  Build_PathApi resolve relative basename extname.

End Posix.

(** ** Any JavaScript value

    [toSerializable] is declared on [any], and [buildImageData] and
    [determineTagsToExtract] read and write properties by computed name.  This
    module follows the same source lines over every value and every name:
    - reading a property, calling [valueOf()] and converting to a string are
      steps that may throw (a getter, a method of the object's own, an
      object without prototype);
    - a read that finds no own property goes on to [Object.prototype];
    - an assignment to [__proto__] runs the setter of [Object.prototype],
      which changes the prototype and adds no field. *)

(** A [Date] carries the result of [toISOString()], absent when the call
    throws, and what [String(value)] does.  An array is the list of its
    elements.  Of any other object the serializer observes, in this order:
    the read of [toDate] ([None] when what it finds is no function, else
    what the call does), the read of [valueOf] and the call, the reads of
    [num] and [den], and [String(value)].  Functions, symbols and big
    integers go the same way through the source and are objects here. *)
Inductive jsvalue : Type :=
| JNull
| JUndefined
| JString (s : string)
| JNumber (x : float)
| JBoolean (b : bool)
| JDate (iso : option string) (text : completion string)
| JArray (elems : list jsvalue)
| JObject (toDate : completion (option (call jsvalue)))
          (valueOf : completion (option (call (receiver_or jsvalue))))
          (num den : completion jsvalue)
          (text : completion string).

(** The result of a call that returned. *)
Definition returned {A} (c : completion A) : option A :=
  match c with
  | Normal a => Some a
  | Thrown _ => None
  end.

Module Any.

Definition nullish (v : jsvalue) : bool :=
  match v with
  | JNull | JUndefined => true
  | _ => false
  end.

(** [d.toISOString()] inside the try block: only a [Date] has the method,
    whatever else [toDate()] returned sends the call to the [catch]. *)
Definition toISOString (d : jsvalue) : completion string :=
  match d with
  | JDate (Some iso) _ => Normal iso
  | JDate None _ => Thrown "RangeError: Invalid time value"
  | _ => Thrown "TypeError: toISOString is not a function"
  end.

(** [utils.ts], [toSerializable] (lines 744-784).  The try block spans the
    date conversion only: the reads of [toDate], [valueOf], [num] and [den],
    the call of [valueOf] and both [String(value)] are outside it. *)
Fixpoint toSerializable (value : jsvalue) : completion sval :=
  match value with
  | JNull | JUndefined => Normal SNull
  | JString s => Normal (SString s)
  | JNumber x => Normal (SNumber x)
  | JBoolean b => Normal (SBoolean b)
  | JDate _ text =>
      try_catch
        (iso ← toISOString value; Normal (SString iso))
        (λ _, s ← text; Normal (SString s))
  | JArray elems =>
      rs ← mapM toSerializable elems; Normal (SArray rs)
  | JObject toDate valueOf num den text =>
      toDate_member ← toDate;
      match toDate_member with
      | Some toDate_call =>
          try_catch
            (d ← match toDate_call with
                 | Raises e => Thrown e
                 | Returns d => Normal d
                 end;
             iso ← toISOString d;
             Normal (SString iso))
            (λ _, s ← text; Normal (SString s))
      | None =>
          valueOf_member ← valueOf;
          primitiveValue ←
            match valueOf_member with
            | Some (Raises e) => Thrown e
            | Some (Returns primitiveValue) => Normal (Some primitiveValue)
            | None => Normal None
            end;
          match primitiveValue with
          | Some (Other (JNumber x)) => Normal (SNumber x)
          | Some (Other (JString s)) => Normal (SString s)
          | Some (Other _) | Some This | None =>
              num_value ← num;
              match num_value with
              | JNumber n =>
                  den_value ← den;
                  match den_value with
                  | JNumber d => Normal (SNumber (n / d))
                  | _ => s ← text; Normal (SString s)
                  end
              | _ => s ← text; Normal (SString s)
              end
          end
      end
  end.

Definition normal {A} (c : completion A) : bool :=
  match c with
  | Normal _ => true
  | Thrown _ => false
  end.

(** A value on which none of the steps outside the try block throws: no
    read of [toDate], [valueOf], [num] or [den], no call of [valueOf], no
    string conversion, and so for the elements of an array. *)
Fixpoint benign (v : jsvalue) : bool :=
  match v with
  | JNull | JUndefined | JString _ | JNumber _ | JBoolean _ => true
  | JDate _ text => normal text
  | JArray elems => forallb benign elems
  | JObject toDate valueOf num den text =>
      normal toDate
      && match valueOf with
         | Normal None | Normal (Some (Returns _)) => true
         | Normal (Some (Raises _)) | Thrown _ => false
         end
      && normal num && normal den && normal text
  end.

(** The reader's values among all values. *)
Fixpoint widen (v : value) : jsvalue :=
  match v with
  | VNull => JNull
  | VUndefined => JUndefined
  | VString s => JString s
  | VNumber x => JNumber x
  | VBoolean b => JBoolean b
  | VDate iso text => JDate iso (Normal text)
  | VArray elems => JArray (map widen elems)
  | VObject toDate valueOf props text =>
      let member :=
        fix member (props : list (string * value)) (name : string) : jsvalue :=
          match props with
          | [] => JUndefined
          | (k, v) :: rest =>
              if String.eqb k name then widen v else member rest name
          end in
      JObject
        (Normal match toDate with
                | Some (Raises e) => Some (Raises e)
                | Some (Returns d) => Some (Returns (widen d))
                | None => None
                end)
        (Normal match valueOf with
                | Some This => Some (Returns This)
                | Some (Other p) => Some (Returns (Other (widen p)))
                | None => None
                end)
        (Normal (member props "num")) (Normal (member props "den"))
        (Normal text)
  end.

(** A built-in function as the serializer sees it: no [toDate], the
    inherited [valueOf], no [num], and the text of its source. *)
Definition native_function (name : string) : jsvalue :=
  JObject (Normal None) (Normal (Some (Returns This)))
          (Normal JUndefined) (Normal JUndefined)
          (Normal ("function " ++ name ++ "() { [native code] }")).

(** What a plain object inherits: the members of [Object.prototype].  Read
    on a plain object, [__proto__] is [Object.prototype] itself. *)
Definition Object_prototype : gmap string jsvalue :=
  list_to_map
    [ ("constructor", native_function "Object");
      ("__defineGetter__", native_function "__defineGetter__");
      ("__defineSetter__", native_function "__defineSetter__");
      ("hasOwnProperty", native_function "hasOwnProperty");
      ("__lookupGetter__", native_function "__lookupGetter__");
      ("__lookupSetter__", native_function "__lookupSetter__");
      ("isPrototypeOf", native_function "isPrototypeOf");
      ("propertyIsEnumerable", native_function "propertyIsEnumerable");
      ("toString", native_function "toString");
      ("valueOf", native_function "valueOf");
      ("toLocaleString", native_function "toLocaleString");
      ("__proto__",
        JObject (Normal None) (Normal (Some (Returns This)))
                (Normal JUndefined) (Normal JUndefined)
                (Normal "[object Object]")) ].

(** [o[name]] on a plain object. *)
Definition get_property (o : gmap string jsvalue) (name : string) : jsvalue :=
  match o !! name with
  | Some v => v
  | None => default JUndefined (Object_prototype !! name)
  end.

(** [o[name] = v] on a plain object, as far as its own fields go. *)
Definition set_property {A} (name : string) (v : A) (o : gmap string A)
  : gmap string A :=
  if String.eqb name "__proto__" then o else <[name := v]> o.

(** [loader.ts], [determineTagsToExtract] (lines 27-47); [add_preset] is the
    body of its first loop.  Every member of [Object.prototype] is a
    function or an object, so the test of line 34 passes for its name and
    the [for ... of] of line 35 throws. *)
Definition add_preset (acc : completion (gset string)) (preset : string)
  : completion (gset string) :=
  tagsSet ← acc;
  match EXIF_PRESET_MAPPINGS !! preset with
  | Some preset_tags =>
      Normal (foldl (λ tagsSet tag, {[tag]} ∪ tagsSet) tagsSet preset_tags)
  | None =>
      match Object_prototype !! preset with
      | Some _ =>
          Thrown "TypeError: EXIF_PRESET_MAPPINGS[preset] is not iterable"
      | None => Normal tagsSet
      end
  end.

Definition determineTagsToExtract (presets tags : list string)
  : completion (gset string) :=
  tagsSet ← foldl add_preset (Normal (∅ : gset string)) presets;
  Normal (foldl (λ tagsSet tag, {[tag]} ∪ tagsSet) tagsSet tags).

(** [utils.ts], [buildImageData] (lines 786-838). *)
Definition buildImageData
    (tags : gmap string jsvalue) (fileName mtime : string) (fileSize : float)
    (tagsToExtract : option (gset string)) (excludeTags : gset string)
    (includeRawExif : bool) : completion (gmap string field) :=
  let data : gmap string field :=
    <["mtime" := Scalar (SString mtime)]>
      (<["fileName" := Scalar (SString fileName)]> ∅) in
  data ←
    match tagsToExtract with
    | None =>
        (* for (const [tagName, tagValue] of Object.entries(tags)) *)
        data ← map_fold
          (λ tagName tagValue acc,
             data ← acc;
             if negb (nullish tagValue) && bool_decide (tagName ∉ excludeTags)
             then v ← toSerializable tagValue;
                  Normal (set_property tagName (Scalar v) data)
             else Normal data)
          (Normal data) tags;
        Normal (<["FileSize" := Scalar (SNumber fileSize)]> data)
    | Some tagsToExtract =>
        if bool_decide (0 < size tagsToExtract) then
          (* for (const tagName of tagsToExtract) *)
          data ← set_fold
            (λ tagName acc,
               data ← acc;
               if bool_decide (tagName ∉ excludeTags) then
                 let tagValue := get_property tags tagName in
                 if negb (nullish tagValue)
                 then v ← toSerializable tagValue;
                      Normal (set_property tagName (Scalar v) data)
                 else Normal data
               else Normal data)
            (Normal data) tagsToExtract;
          if bool_decide ("FileSize" ∈ tagsToExtract)
             && bool_decide ("FileSize" ∉ excludeTags)
          then Normal (<["FileSize" := Scalar (SNumber fileSize)]> data)
          else Normal data
        else Normal data
    end;
  if includeRawExif then
    rawExif ← map_fold
      (λ tagName tagValue acc,
         rawExif ← acc;
         if negb (nullish tagValue)
         then v ← toSerializable tagValue;
              Normal (set_property tagName v rawExif)
         else Normal rawExif)
      (Normal ∅) tags;
    Normal (<["rawExif" := Nested rawExif]> data)
  else Normal data.

(** The values [buildImageData] hands to [toSerializable]: in either loop
    of the curated fields the values that are not excluded and neither
    [null] nor [undefined], and for [rawExif] every such value of the
    record. *)
Definition serializes
    (tags : gmap string jsvalue) (tagsToExtract : option (gset string))
    (excludeTags : gset string) (includeRawExif : bool) (v : jsvalue) : Prop :=
  match tagsToExtract with
  | None =>
      ∃ k, tags !! k = Some v ∧ nullish v = false ∧ (k ∉ excludeTags)
  | Some tagsToExtract =>
      ∃ k, k ∈ tagsToExtract ∧ (k ∉ excludeTags) ∧
           v = get_property tags k ∧ nullish v = false
  end ∨
  (includeRawExif = true ∧ ∃ k, tags !! k = Some v ∧ nullish v = false).

End Any.

(** ** Sample inputs *)

Module Samples.

(** [{num: 1, den: 2}] and [{numerator: 1, denominator: 2}], plain objects:
    no [toDate], the inherited [valueOf], the inherited string conversion. *)
Definition rational_num_den : value :=
  VObject None (Some This) [("num", VNumber 1); ("den", VNumber 2)]
          "[object Object]".

Definition rational_numerator_denominator : value :=
  VObject None (Some This)
          [("numerator", VNumber 1); ("denominator", VNumber 2)]
          "[object Object]".

Definition raw_tags : gmap string value :=
  <["Directory" := VString "/tmp"]>
    (<["ISO" := VNumber 400]> (<["FileSize" := VString "2.0 kB"]> ∅)).

Definition photo : string := "/proj/src/content/images/photo.jpg".

Definition host (mtime : string) : Host :=
  {| stat := λ _, Normal {| stats_mtime := mtime; stats_size := 2048 |};
     exiftool_read := λ _, Normal raw_tags;
     generateDigest := λ _, "digest";
     picomatch := λ _ _, true |}.

Definition no_options : ExifLoaderOptions :=
  {| imagesDir := None; presets := None; tags := None; excludeTags := None;
     extractAll := None; includeRawExif := None |}.

Definition stored (id mtime : string) : gmap string entry :=
  {[ id := {| entry_id := id;
              entry_data := {[ "mtime" := Scalar (SString mtime) ]};
              entry_digest := "old"; entry_filePath := "" |} ]}.

(** Two collection entries, the first without a source path, and a glob
    map that knows the second one's image. *)
Definition entry_without_path : Entry (option string) :=
  {| id := "a"; collection := "images"; data := None; filePath := None |}.

Definition entry_under_src : Entry (option string) :=
  {| id := "photo"; collection := "images";
     data := Some "content/images/photo.jpg";
     filePath := Some "src/content/images/photo.jpg" |}.

Definition glob (imagePath : string) : option (completion (option string)) :=
  if String.eqb imagePath "/src/content/images/photo.jpg"
  then Some (Normal (Some "photo-module"))
  else None.

End Samples.

(** The tag record [processImage] goes on with: the reader's, or the empty
    one when the reader fails. *)
Definition tags_read {host : Host} (filePath : string) : gmap string value :=
  match exiftool_read filePath with
  | Normal tags => tags
  | Thrown _ => ∅
  end.

(** Whether [stat] finds the file. *)
Definition found {host : Host} (filePath : string) : bool :=
  match stat filePath with
  | Normal _ => true
  | Thrown _ => false
  end.

(** A stored record as [getCollection] hands it to the importer. *)
Definition collection_entry (collection : string) (e : entry)
  : Entry (gmap string field) :=
  {| id := entry_id e; collection := collection; data := entry_data e;
     filePath := Some (entry_filePath e) |}.

(** ** Further sample inputs *)

Module Scenarios.

(** [{"Make": "Canon", "Model": "R5"}] *)
Definition canon : gmap string value :=
  <["Make" := VString "Canon"]> (<["Model" := VString "R5"]> ∅).

(** A host whose metadata reader fails on every file. *)
Definition unreadable (mtime : string) : Host :=
  {| stat := λ _, Normal {| stats_mtime := mtime; stats_size := 2048 |};
     exiftool_read := λ _, Thrown "unsupported file";
     generateDigest := λ _, "digest";
     picomatch := λ _ _, true |}.

Definition images : string := "/proj/src/content/images".

(** A host on which [gone.jpg] is gone: [stat] fails on it. *)
Definition missing : Host :=
  {| stat := λ filePath,
       if String.eqb filePath "/proj/src/content/images/gone.jpg"
       then Thrown "ENOENT"
       else Normal {| stats_mtime := "2024-01-01T00:00:00.000Z";
                      stats_size := 2048 |};
     exiftool_read := λ _, Normal Samples.raw_tags;
     generateDigest := λ _, "digest";
     picomatch := λ _ _, true |}.

End Scenarios.

(** ** Sample inputs beyond the reader's values *)

Module Exotic.



(** [{"Make": "Canon", "Model": "R5"}] *)
Definition canon : gmap string jsvalue :=
  <["Make" := JString "Canon"]> (<["Model" := JString "R5"]> ∅).

(** [JSON.parse('{"ISO": 400, "__proto__": "x", "Directory": "/tmp"}')]: the
    parser defines [__proto__] as a field of the object's own. *)
Definition own_proto : gmap string jsvalue :=
  <["ISO" := JNumber 400]>
    (<["__proto__" := JString "x"]> (<["Directory" := JString "/tmp"]> ∅)).

End Exotic.

(** * Properties *)

(** ** The value serializer *)

Lemma mapM_total {A B} (f : A → completion B) (xs : list A) :
  Forall (λ x, returns (f x)) xs → returns (mapM f xs).
Proof.
  induction 1 as [|x xs [y Hy] _ [ys Hys]]; simpl.
  - by eexists.
  - rewrite Hy, Hys. by eexists.
Qed.

(** Induction on values that reaches the elements of an array. *)
Lemma value_array_ind (P : value → Prop) :
  P VNull → P VUndefined →
  (∀ s, P (VString s)) → (∀ x, P (VNumber x)) → (∀ b, P (VBoolean b)) →
  (∀ iso text, P (VDate iso text)) →
  (∀ elems, Forall P elems → P (VArray elems)) →
  (∀ toDate valueOf props text, P (VObject toDate valueOf props text)) →
  ∀ v, P v.
Proof.
  intros Hnull Hundef Hstr Hnum Hbool Hdate Harr Hobj.
  fix IH 1. intros [ | | s | x | b | iso text | elems | toDate valueOf props text].
  - exact Hnull.
  - exact Hundef.
  - apply Hstr.
  - apply Hnum.
  - apply Hbool.
  - apply Hdate.
  - apply Harr. induction elems as [|e elems IHelems]; constructor.
    + apply IH.
    + exact IHelems.
  - apply Hobj.
Qed.

Lemma toSerializable_returns (v : value) : returns (toSerializable v).
Proof.
  induction v as [ | | s | x | b | iso text | elems IH
                 | toDate valueOf props text] using value_array_ind;
    simpl; try (by eexists).
  - destruct iso; by eexists.
  - destruct (mapM_total toSerializable elems IH) as [rs ->]. by eexists.
  - destruct toDate as [[e|[ | | | | |[iso|] ? | | ]]|]; simpl; try (by eexists).
    destruct valueOf as [[|[]]|]; simpl; try (by eexists);
      destruct (get props "num"); try (by eexists);
      destruct (get props "den"); by eexists.
Qed.

Lemma toSerializable_serialized (v : value) :
  toSerializable v = Normal (serialized v).
Proof.
  unfold serialized. by destruct (toSerializable_returns v) as [r ->].
Qed.

(** ** The value serializer on any value *)






(** ** Rationals *)

(** C3, as the code has it.  The rational fields the serializer reads are
    [num] and [den]: an object with no [toDate], whose [valueOf] gives
    neither a number nor a string, and whose [num] and [den] are numbers
    serializes to [num / den]. *)
Theorem toSerializable_rational
    (valueOf : option (receiver_or value)) (props : list (string * value))
    (text : string) (num den : float) :
  (∀ p, valueOf = Some (Other p) → typeof p ≠ TNumber ∧ typeof p ≠ TString) →
  get props "num" = VNumber num →
  get props "den" = VNumber den →
  toSerializable (VObject None valueOf props text)
  = Normal (SNumber (num / den)).
Proof.
  intros Hprim Hnum Hden. simpl. rewrite Hnum, Hden.
  destruct valueOf as [[|p]|]; try reflexivity.
  destruct (Hprim p eq_refl) as [Hn Hs].
  destruct p; simpl in *; congruence.
Qed.

(** [{num: 1, den: 2}] serializes to [0.5]. *)
Lemma toSerializable_rational_half :
  toSerializable Samples.rational_num_den = Normal (SNumber 0.5).
Proof.
  apply (toSerializable_rational (Some This)
           [("num", VNumber 1); ("den", VNumber 2)] "[object Object]" 1 2);
    [intros p Hp; discriminate | reflexivity | reflexivity].
Defined.

(** C3, as the spec words it, fails: the fields [numerator] and
    [denominator] are not read, and the object falls to its string form. *)
Lemma toSerializable_numerator_denominator :
  toSerializable Samples.rational_numerator_denominator
    = Normal (SString "[object Object]") ∧
  toSerializable Samples.rational_numerator_denominator
    ≠ Normal (SNumber 0.5).
Proof. split; [reflexivity | discriminate]. Qed.

(** ** The projector *)

Section Projector.
Context (tags : gmap string value) (fileName mtime : string) (fileSize : float).
Context (excludeTags : gset string).

(** The loop of the extract-all branch. *)
Lemma all_loop (data0 : gmap string field) (m : gmap string value) :
  ∃ data,
    map_fold
      (λ tagName tagValue (acc : completion (gmap string field)),
         data ← acc;
         if negb (nullish tagValue) && bool_decide (tagName ∉ excludeTags)
         then v ← toSerializable tagValue;
              Normal (<[tagName := Scalar v]> data)
         else Normal data)
      (Normal data0) m = Normal data ∧
    ∀ k, data !! k =
         match m !! k with
         | Some v =>
             if negb (nullish v) && bool_decide (k ∉ excludeTags)
             then Some (Scalar (serialized v)) else data0 !! k
         | None => data0 !! k
         end.
Proof.
  apply (map_fold_weak_ind (λ r m, ∃ data, r = Normal data ∧ ∀ k, data !! k =
         match m !! k with
         | Some v =>
             if negb (nullish v) && bool_decide (k ∉ excludeTags)
             then Some (Scalar (serialized v)) else data0 !! k
         | None => data0 !! k
         end)).
  - exists data0. split; [done|]. intros k. by rewrite lookup_empty.
  - intros i x m' r Hi (data & -> & Hdata). simpl.
    destruct (negb (nullish x) && bool_decide (i ∉ excludeTags)) eqn:Hc.
    + rewrite toSerializable_serialized. simpl. eexists. split; [done|].
      intros k. destruct (decide (i = k)) as [->|Hne].
      * by rewrite !lookup_insert_eq, Hc.
      * rewrite !lookup_insert_ne by done. apply Hdata.
    + exists data. split; [done|]. intros k.
      destruct (decide (i = k)) as [->|Hne].
      * by rewrite lookup_insert_eq, Hc, Hdata, Hi.
      * rewrite lookup_insert_ne by done. apply Hdata.
Qed.

(** The loop that fills [rawExif]. *)
Lemma raw_loop (m : gmap string value) :
  ∃ rawExif,
    map_fold
      (λ tagName tagValue (acc : completion (gmap string sval)),
         rawExif ← acc;
         if negb (nullish tagValue)
         then v ← toSerializable tagValue;
              Normal (<[tagName := v]> rawExif)
         else Normal rawExif)
      (Normal ∅) m = Normal rawExif ∧
    ∀ k, rawExif !! k =
         match m !! k with
         | Some v => if nullish v then None else Some (serialized v)
         | None => None
         end.
Proof.
  apply (map_fold_weak_ind (λ r m, ∃ rawExif, r = Normal rawExif ∧
    ∀ k, rawExif !! k =
         match m !! k with
         | Some v => if nullish v then None else Some (serialized v)
         | None => None
         end)).
  - exists ∅. split; [done|]. intros k. by rewrite !lookup_empty.
  - intros i x m' r Hi (rawExif & -> & Hraw). simpl.
    destruct (nullish x) eqn:Hx; simpl.
    + exists rawExif. split; [done|]. intros k.
      destruct (decide (i = k)) as [->|Hne].
      * by rewrite lookup_insert_eq, Hx, Hraw, Hi.
      * rewrite lookup_insert_ne by done. apply Hraw.
    + rewrite toSerializable_serialized. simpl. eexists. split; [done|].
      intros k. destruct (decide (i = k)) as [->|Hne].
      * by rewrite !lookup_insert_eq, Hx.
      * rewrite !lookup_insert_ne by done. apply Hraw.
Qed.

(** The loop of the explicit-selection branch. *)
Lemma selected_loop (data0 : gmap string field) (X : gset string) :
  ∃ data,
    set_fold
      (λ tagName (acc : completion (gmap string field)),
         data ← acc;
         if bool_decide (tagName ∉ excludeTags) then
           if negb (nullish (default VUndefined (tags !! tagName)))
           then v ← toSerializable (default VUndefined (tags !! tagName));
                Normal (<[tagName := Scalar v]> data)
           else Normal data
         else Normal data)
      (Normal data0) X = Normal data ∧
    ∀ k, k ∈ excludeTags ∨ k ∉ X → data !! k = data0 !! k.
Proof.
  apply (set_fold_ind_L (λ r (X : gset string), ∃ data, r = Normal data ∧
    ∀ k, k ∈ excludeTags ∨ k ∉ X → data !! k = data0 !! k)).
  - exists data0. by split.
  - intros x X' r Hx (data & -> & Hdata). simpl.
    assert (∀ k, k ∈ excludeTags ∨ k ∉ {[x]} ∪ X' →
                 k ∈ excludeTags ∨ k ∉ X') as Hweaken.
    { intros k [Hk|Hk]; [by left|]. right. intros Hin. apply Hk.
      apply elem_of_union. by right. }
    case_bool_decide as Hex.
    + destruct (negb (nullish (default VUndefined (tags !! x)))).
      * rewrite toSerializable_serialized. simpl. eexists. split; [done|].
        intros k Hk. rewrite lookup_insert_ne; [by apply Hdata, Hweaken|].
        intros ->. destruct Hk as [Hk|Hk]; [done|]. apply Hk.
        apply elem_of_union. left. by apply elem_of_singleton.
      * exists data. split; [done|]. intros k Hk. by apply Hdata, Hweaken.
    + exists data. split; [done|]. intros k Hk. by apply Hdata, Hweaken.
Qed.

(** The last statement of [buildImageData], once the curated fields are
    there: reading a curated field other than [rawExif] is not affected. *)
Ltac raw_tail includeRawExif :=
  simpl; destruct includeRawExif;
  [ destruct (raw_loop tags) as (? & -> & _); simpl; eexists;
    split; [done|]; rewrite lookup_insert_ne by done
  | eexists; split; [done|] ].

(** A tag of the exclusion set is never copied by either loop, and only
    the extract-all branch writes [FileSize] without asking the set: apart
    from that, and from the base and [rawExif] fields, an excluded name is
    absent from the output. *)
Lemma buildImageData_excluded
    (tagsToExtract : option (gset string)) (includeRawExif : bool) (T : string) :
  T ∈ excludeTags →
  T ≠ "fileName" → T ≠ "mtime" → T ≠ "rawExif" →
  T ≠ "FileSize" ∨ tagsToExtract ≠ None →
  ∃ data,
    buildImageData tags fileName mtime fileSize tagsToExtract excludeTags
      includeRawExif = Normal data ∧
    data !! T = None.
Proof.
  intros HT Hf Hm Hr Hsize. unfold buildImageData. cbv zeta.
  set (base := <["mtime" := Scalar (SString mtime)]>
                 (<["fileName" := Scalar (SString fileName)]> ∅)).
  assert (base !! T = None) as Hbase
    by (subst base; by rewrite !lookup_insert_ne, lookup_empty).
  destruct tagsToExtract as [X|].
  - case_bool_decide.
    + destruct (selected_loop base X) as (data & -> & Hdata). simpl.
      assert (data !! T = None) as HT' by (rewrite Hdata; [done | by left]).
      destruct (bool_decide ("FileSize" ∈ X)
                && bool_decide ("FileSize" ∉ excludeTags)) eqn:Hc.
      * apply andb_true_iff in Hc as [_ Hc]. apply bool_decide_eq_true in Hc.
        raw_tail includeRawExif; rewrite lookup_insert_ne; try done;
          intros <-; done.
      * raw_tail includeRawExif; done.
    + raw_tail includeRawExif; done.
  - destruct Hsize as [Hsize|]; [|done].
    destruct (all_loop base tags) as (data & -> & Hdata). simpl.
    assert (data !! T = None) as HT'.
    { rewrite Hdata, Hbase. destruct (tags !! T) as [v|]; [|done].
      rewrite (bool_decide_eq_false_2 (T ∉ excludeTags))
        by (intros Hn; by apply Hn).
      by rewrite andb_false_r. }
    raw_tail includeRawExif; by rewrite lookup_insert_ne.
Qed.

End Projector.

(** C2. In extract-all mode the output's [FileSize] is the size from the
    file system's stat result, whatever the raw record holds under
    [FileSize] or any other name, and whatever the other arguments are. *)
Theorem buildImageData_all_FileSize
    (tags : gmap string value) (fileName mtime : string) (fileSize : float)
    (excludeTags : gset string) (includeRawExif : bool) :
  ∃ data,
    buildImageData tags fileName mtime fileSize None excludeTags
      includeRawExif = Normal data ∧
    data !! "FileSize" = Some (Scalar (SNumber fileSize)).
Proof.
  unfold buildImageData. cbv zeta.
  destruct (all_loop excludeTags
              (<["mtime" := Scalar (SString mtime)]>
                 (<["fileName" := Scalar (SString fileName)]> ∅)) tags)
    as (data & -> & _).
  simpl. destruct includeRawExif.
  - destruct (raw_loop tags) as (rawExif & -> & _). simpl.
    eexists. split; [done|].
    rewrite lookup_insert_ne by done. by rewrite lookup_insert_eq.
  - eexists. split; [done|]. by rewrite lookup_insert_eq.
Qed.

(** C1, at the input where the code leaves it: with [FileSize] in the
    exclusion set, extract-all mode still writes [FileSize], while the
    explicit-selection branch asks the exclusion set first and leaves it
    out. *)
Theorem buildImageData_all_ignores_excluded_FileSize :
  "FileSize" ∈ ({["FileSize"]} : gset string) ∧
  (∃ data,
     buildImageData Samples.raw_tags "photo.jpg" "2024-01-01T00:00:00.000Z"
       2048 None {["FileSize"]} false = Normal data ∧
     data !! "FileSize" = Some (Scalar (SNumber 2048))) ∧
  (∃ data,
     buildImageData Samples.raw_tags "photo.jpg" "2024-01-01T00:00:00.000Z"
       2048 (Some {["FileSize"; "ISO"]}) {["FileSize"]} false = Normal data ∧
     data !! "FileSize" = None ∧
     data !! "ISO" = Some (Scalar (SNumber 400))).
Proof.
  split; [set_solver|]. split.
  - eexists. split; [vm_compute; reflexivity|]. by vm_compute.
  - eexists. split; [vm_compute; reflexivity|]. by vm_compute.
Qed.


(** C7. Whatever the options, the exclusion set the loader projects with
    contains every built-in filesystem tag, and the output record of a
    projection with the loader's selection, exclusion set and raw flag has
    no field of that name. *)
Theorem leaky_tags_always_excluded (options : ExifLoaderOptions) (T : string) :
  T ∈ FILESYSTEM_LEAKY_TAGS →
  T ∈ loader_excludeTagsSet (createExifLoader options) ∧
  ∀ tags fileName mtime fileSize,
    ∃ data,
      buildImageData tags fileName mtime fileSize
        (loader_tagsToExtract (createExifLoader options))
        (loader_excludeTagsSet (createExifLoader options))
        (loader_includeRawExif (createExifLoader options)) = Normal data ∧
      data !! T = None.
Proof.
  intros HT.
  assert (T ∈ loader_excludeTagsSet (createExifLoader options)) as Hex.
  { cbv [createExifLoader loader_excludeTagsSet].
    apply elem_of_list_to_set, elem_of_app. by left. }
  split; [exact Hex|]. intros tags fileName mtime fileSize.
  apply buildImageData_excluded; [exact Hex|..];
    unfold FILESYSTEM_LEAKY_TAGS in HT;
    repeat (apply elem_of_cons in HT as [->|HT]; [try done; by left|]);
    by apply elem_of_nil in HT.
Qed.

(** With no options at all, [Directory] is excluded and absent. *)
Lemma leaky_tags_always_excluded_Directory :
  "Directory" ∈ loader_excludeTagsSet (createExifLoader Samples.no_options) ∧
  ∀ tags fileName mtime fileSize,
    ∃ data,
      buildImageData tags fileName mtime fileSize
        (loader_tagsToExtract (createExifLoader Samples.no_options))
        (loader_excludeTagsSet (createExifLoader Samples.no_options))
        (loader_includeRawExif (createExifLoader Samples.no_options))
      = Normal data ∧
      data !! "Directory" = None.
Proof.
  apply (leaky_tags_always_excluded Samples.no_options "Directory").
  unfold FILESYSTEM_LEAKY_TAGS. apply elem_of_cons. by left.
Defined.

(** ** Change detection *)

Lemma unchanged_iff (existingEntry : option entry) (mtime : string) :
  unchanged existingEntry mtime = true ↔
  ∃ e, existingEntry = Some e ∧
       entry_data e !! "mtime" = Some (Scalar (SString mtime)).
Proof.
  unfold unchanged. split.
  - destruct existingEntry as [e|]; [|done].
    destruct (entry_data e !! "mtime") as [[[]|]|] eqn:Hm; try done.
    intros ->%String.eqb_eq. by exists e.
  - intros (e & -> & ->). apply String.eqb_refl.
Qed.

Section ChangeDetection.
Context {paths : PathApi} {host : Host}.
Context (filePath rootPath : string) (store : gmap string entry).
Context (tagsToExtract : option (gset string)) (excludeTags : gset string).
Context (includeRawExif : bool).

Lemma processImage_v1_skips (stats : Stats) :
  stat filePath = Normal stats →
  let result := LoaderV1.processImage filePath store rootPath tagsToExtract
                  excludeTags includeRawExif in
  (result.1.2 = Skipped ↔
   unchanged (store !! LoaderV1.processImage_id rootPath filePath)
             (stats_mtime stats) = true) ∧
  (result.1.2 = Skipped → result = (store, Skipped, [])).
Proof.
  intros Hstat. unfold LoaderV1.processImage, LoaderV1.processImage_id.
  cbv zeta. rewrite Hstat.
  destruct (unchanged _ _) eqn:Hu; [done|].
  destruct (exiftool_read filePath) as [tags|msg];
    (destruct (buildImageData _ _ _ _ _ _ _) as [imageData|msg'];
     [destruct (store_set _ _) as [store' success]|]); simpl; by split.
Qed.

Lemma processImage_v2_skips (basePath : option string) (stats : Stats) :
  stat filePath = Normal stats →
  let result := LoaderV2.processImage filePath store rootPath tagsToExtract
                  excludeTags includeRawExif basePath in
  (result.1.2 = Skipped ↔
   unchanged (store !! LoaderV2.processImage_id rootPath basePath filePath)
             (stats_mtime stats) = true) ∧
  (result.1.2 = Skipped → result = (store, Skipped, [])).
Proof.
  intros Hstat. unfold LoaderV2.processImage, LoaderV2.processImage_id.
  cbv zeta. rewrite Hstat.
  destruct (unchanged _ _) eqn:Hu; [done|].
  destruct (exiftool_read filePath) as [tags|msg];
    (destruct (buildImageData _ _ _ _ _ _ _) as [imageData|msg'];
     [destruct (store_set _ _) as [store' success]|]); simpl; by split.
Qed.

End ChangeDetection.



(** ** Identifiers *)

(** In the revised loader the two identifiers agree on every path whose
    relative form has no backslash to rewrite. *)
Lemma unlink_id_v2_agrees
    {paths : PathApi} (rootPath basePath filePath : string) :
  basePath ≠ "" →
  replace_backslashes (relative basePath filePath) = relative basePath filePath →
  LoaderV2.unlink_id basePath filePath
  = LoaderV2.processImage_id rootPath (Some basePath) filePath.
Proof.
  intros Hb Hrel. unfold LoaderV2.unlink_id, LoaderV2.processImage_id.
  apply String.eqb_neq in Hb. rewrite Hb. cbv zeta. by rewrite Hrel.
Qed.

(** C4, at the input where the first loader leaves it.  For
    [/proj/src/content/images/photo.jpg] in a project rooted at [/proj],
    [processImage] stores the record under [content/images/photo.jpg], the
    [unlink] callback deletes [photo.jpg], and the record of the removed
    file stays in the store. *)
Theorem unlink_id_v1_misses_stored_id :
  LoaderV1.processImage_id (paths := Posix.api) "/proj" Samples.photo
    = "content/images/photo.jpg" ∧
  LoaderV1.unlink_id (paths := Posix.api) Samples.photo = "photo.jpg" ∧
  ∃ store logs,
    LoaderV1.processImage (paths := Posix.api)
      (host := Samples.host "2024-01-01T00:00:00.000Z") Samples.photo ∅
      "/proj" None (loader_excludeTagsSet (createExifLoader Samples.no_options))
      false = (store, Stored true, logs) ∧
    is_Some (store !! "content/images/photo.jpg") ∧
    LoaderV1.onUnlink (paths := Posix.api)
      (host := Samples.host "2024-01-01T00:00:00.000Z")
      (createExifLoader Samples.no_options) "/proj" Samples.photo store
    = (store, [LogRemoved Samples.photo]).
Proof.
  split; [reflexivity|]. split; [reflexivity|].
  eexists _, _. split; [vm_compute; reflexivity|].
  split; [by vm_compute; eexists|]. vm_compute. reflexivity.
Qed.

(** The revised loader on a POSIX file name that holds a backslash:
    [processImage] rewrites it in the identifier, [unlink] does not. *)
Lemma unlink_id_v2_backslash :
  LoaderV2.processImage_id (paths := Posix.api) "/proj"
    (Some "/proj/src/content/images") "/proj/src/content/images/a\b.jpg"
    = "a/b" ∧
  LoaderV2.unlink_id (paths := Posix.api)
    "/proj/src/content/images" "/proj/src/content/images/a\b.jpg"
    = "a\b".
Proof. split; reflexivity. Qed.

(** ** The image importer *)

(** [xs.filter(p).length === xs.length] says that [p] holds of every
    element. *)
Lemma filter_keeps_all {A} (p : A → bool) (xs : list A) :
  Nat.eqb (length (filter (λ x, p x = true) xs)) (length xs) = true ↔
  Forall (λ x, p x = true) xs.
Proof.
  rewrite Nat.eqb_eq. induction xs as [|x xs IH].
  - split; [constructor | done].
  - rewrite filter_cons. destruct (decide (p x = true)) as [Hx|Hx]; simpl.
    + split.
      * intros [= Hlen]. constructor; [done | by apply IH].
      * intros [_ Hxs]%Forall_cons. f_equal. by apply IH.
    + split.
      * intros Hlen. pose proof (length_filter (λ x, p x = true) xs). lia.
      * by intros [? _]%Forall_cons.
Qed.

Lemma filter_keeps_some {A} (p : A → bool) (xs : list A) :
  Exists (λ x, p x = true) xs →
  Nat.ltb 0 (length (filter (λ x, p x = true) xs)) = true.
Proof.
  intros (x & Hx & Hp)%Exists_exists. apply Nat.ltb_lt.
  assert (x ∈ filter (λ x, p x = true) xs) as Hin
    by (by apply list_elem_of_filter).
  destruct (filter _ xs); [by apply not_elem_of_nil in Hin | simpl; lia].
Qed.

Section ImporterFacts.
Context {Data ImageMetadata : Type}.
Context (srcPath : Data → option string).
Context (files : string → option (completion (option ImageMetadata))).
Context {paths : PathApi} (cwd : string).

Lemma importer_v1_throws (entries : list (Entry Data)) :
  (ImporterV1.imageImporter srcPath files entries).2 = Thrown ONLY_UNDER_SRC ↔
  Forall (λ e, ImporterV1.lacks srcPath e = true) entries.
Proof.
  rewrite <- filter_keeps_all. unfold ImporterV1.imageImporter. cbv zeta.
  destruct (length (filter _ entries) =? length entries)%nat; [done|].
  unfold map_warn. simpl. by split.
Qed.

Lemma importer_v1_partial (entries : list (Entry Data)) :
  Exists (λ e, ImporterV1.lacks srcPath e = true) entries →
  ¬ Forall (λ e, ImporterV1.lacks srcPath e = true) entries →
  ∃ ws,
    ImporterV1.imageImporter srcPath files entries
    = (ws, Normal ((λ e, (ImporterV1.import_entry srcPath files e).2)
                   <$> entries)) ∧
    WarnEntriesMissing
      (length (filter (λ e, ImporterV1.lacks srcPath e = true) entries)) ∈ ws.
Proof.
  intros Hsome Hnot. unfold ImporterV1.imageImporter. cbv zeta.
  destruct (length (filter _ entries) =? length entries)%nat eqn:Hall.
  { by apply filter_keeps_all in Hall. }
  rewrite (filter_keeps_some _ _ Hsome). unfold map_warn.
  eexists. split; [done|]. apply elem_of_cons. by left.
Qed.

Lemma importer_v1_null (e : Entry Data) :
  ImporterV1.lacks srcPath e = true →
  (ImporterV1.import_entry srcPath files e).2 = with_import e None.
Proof.
  unfold ImporterV1.lacks, ImporterV1.import_entry. cbv zeta. by intros ->.
Qed.

Lemma importer_v2_throws (entries : list (Entry Data)) :
  (ImporterV2.imageImporter files cwd (ImporterV2.Many entries)).2
    = Thrown ONLY_UNDER_SRC ↔
  Forall (λ e, ImporterV2.outside cwd e = true) entries.
Proof.
  rewrite <- filter_keeps_all. unfold ImporterV2.imageImporter. cbv zeta.
  simpl.
  destruct (length (filter _ entries) =? length entries)%nat; [done|].
  unfold map_warn. simpl. by split.
Qed.

Lemma importer_v2_throws_one (e : Entry Data) :
  (ImporterV2.imageImporter files cwd (ImporterV2.One e)).2
    = Thrown ONLY_UNDER_SRC ↔
  ImporterV2.outside cwd e = true.
Proof.
  unfold ImporterV2.imageImporter. cbv zeta. simpl.
  rewrite filter_cons, filter_nil.
  destruct (decide (ImporterV2.outside cwd e = true)) as [Ho|Ho]; simpl.
  - by split.
  - unfold map_warn. simpl. by split.
Qed.

Lemma importer_v2_partial (entries : list (Entry Data)) :
  Exists (λ e, ImporterV2.outside cwd e = true) entries →
  ¬ Forall (λ e, ImporterV2.outside cwd e = true) entries →
  ∃ ws,
    ImporterV2.imageImporter files cwd (ImporterV2.Many entries)
    = (ws, Normal (ImporterV2.Array
                     ((λ e, (ImporterV2.import_entry files cwd e).2)
                      <$> entries))) ∧
    WarnEntriesOutside
      (length (filter (λ e, ImporterV2.outside cwd e = true) entries)) ∈ ws.
Proof.
  intros Hsome Hnot. unfold ImporterV2.imageImporter. cbv zeta. simpl.
  destruct (length (filter _ entries) =? length entries)%nat eqn:Hall.
  { by apply filter_keeps_all in Hall. }
  rewrite (filter_keeps_some _ _ Hsome). unfold map_warn.
  eexists. split; [done|]. apply elem_of_cons. by left.
Qed.

Lemma importer_v2_null (e : Entry Data) :
  ImporterV2.outside cwd e = true →
  (ImporterV2.import_entry files cwd e).2 = with_import e None.
Proof.
  unfold ImporterV2.outside, ImporterV2.import_entry. cbv zeta.
  destruct (falsy (filePath e)); [done|].
  by intros ->.
Qed.

(** With [undefined] no record is asked for: the revised importer answers
    [null] before it looks at anything. *)
Lemma importer_v2_undefined :
  ImporterV2.imageImporter files cwd (ImporterV2.Undefined (Data := Data))
  = ([], Normal ImporterV2.Null).
Proof. reflexivity. Qed.

End ImporterFacts.

(** C9. Both importers raise the hard failure exactly when every requested
    record lacks an importable source path.  When some records lack it and
    some do not, the call does not throw: it warns with the number of
    records it cannot import and returns one result per record, in order,
    each carrying its record's own fields, with a null [defaultImport] for
    every record that lacks the path. *)
Theorem importer_fails_iff_nothing_importable
    {Data ImageMetadata : Type} (srcPath : Data → option string)
    (files : string → option (completion (option ImageMetadata)))
    {paths : PathApi} (cwd : string) :
  (∀ entries : list (Entry Data),
     ((ImporterV1.imageImporter srcPath files entries).2
        = Thrown ONLY_UNDER_SRC ↔
      Forall (λ e, ImporterV1.lacks srcPath e = true) entries) ∧
     (Exists (λ e, ImporterV1.lacks srcPath e = true) entries →
      ¬ Forall (λ e, ImporterV1.lacks srcPath e = true) entries →
      ∃ ws,
        ImporterV1.imageImporter srcPath files entries
        = (ws, Normal ((λ e, (ImporterV1.import_entry srcPath files e).2)
                       <$> entries)) ∧
        WarnEntriesMissing
          (length (filter (λ e, ImporterV1.lacks srcPath e = true) entries))
          ∈ ws)) ∧
  (∀ e : Entry Data,
     (∃ i, (ImporterV1.import_entry srcPath files e).2 = with_import e i) ∧
     (ImporterV1.lacks srcPath e = true →
      (ImporterV1.import_entry srcPath files e).2 = with_import e None)) ∧
  (∀ entries : list (Entry Data),
     ((ImporterV2.imageImporter files cwd (ImporterV2.Many entries)).2
        = Thrown ONLY_UNDER_SRC ↔
      Forall (λ e, ImporterV2.outside cwd e = true) entries) ∧
     (Exists (λ e, ImporterV2.outside cwd e = true) entries →
      ¬ Forall (λ e, ImporterV2.outside cwd e = true) entries →
      ∃ ws,
        ImporterV2.imageImporter files cwd (ImporterV2.Many entries)
        = (ws, Normal (ImporterV2.Array
                         ((λ e, (ImporterV2.import_entry files cwd e).2)
                          <$> entries))) ∧
        WarnEntriesOutside
          (length (filter (λ e, ImporterV2.outside cwd e = true) entries))
          ∈ ws)) ∧
  (∀ e : Entry Data,
     ((ImporterV2.imageImporter files cwd (ImporterV2.One e)).2
        = Thrown ONLY_UNDER_SRC ↔
      ImporterV2.outside cwd e = true) ∧
     (∃ i, (ImporterV2.import_entry files cwd e).2 = with_import e i) ∧
     (ImporterV2.outside cwd e = true →
      (ImporterV2.import_entry files cwd e).2 = with_import e None)).
Proof.
  split; [|split; [|split]].
  - intros entries. split.
    + apply importer_v1_throws.
    + apply importer_v1_partial.
  - intros e. split; [|apply importer_v1_null].
    unfold ImporterV1.import_entry. cbv zeta.
    destruct (falsy _); [by eexists|].
    destruct (import_module _ _). by eexists.
  - intros entries. split.
    + apply importer_v2_throws.
    + apply importer_v2_partial.
  - intros e. split; [apply importer_v2_throws_one|].
    split; [|apply importer_v2_null].
    unfold ImporterV2.import_entry. cbv zeta.
    destruct (falsy _); [by eexists|].
    destruct (negb _); [by eexists|].
    destruct (import_module _ _). by eexists.
Qed.

(** A call with one record that has no source path and one that has: no
    failure, one warning for the count, a null import for the first and the
    image module for the second. *)
Lemma importer_partial_mismatch :
  ∃ ws,
    ImporterV1.imageImporter (λ d, d) Samples.glob
      [Samples.entry_without_path; Samples.entry_under_src]
    = (ws, Normal [with_import Samples.entry_without_path None;
                   with_import Samples.entry_under_src (Some "photo-module")]) ∧
    WarnEntriesMissing 1 ∈ ws.
Proof.
  apply (proj2 (proj1 (importer_fails_iff_nothing_importable
                         (λ d : option string, d) Samples.glob
                         (paths := Posix.api) "/proj")
                      [Samples.entry_without_path; Samples.entry_under_src])).
  - apply Exists_cons_hd. reflexivity.
  - intros Hall. apply Forall_cons in Hall as [_ Hall].
    apply Forall_cons in Hall as [Hsnd _]. discriminate Hsnd.
Defined.

(** C10. Called with an empty array, both importers raise the hard
    failure: none of zero records is missing, and zero equals zero. *)
Theorem importer_empty_array_throws
    {Data ImageMetadata : Type} (srcPath : Data → option string)
    (files : string → option (completion (option ImageMetadata)))
    {paths : PathApi} (cwd : string) :
  ImporterV1.imageImporter srcPath files []
    = ([], Thrown ONLY_UNDER_SRC) ∧
  ImporterV2.imageImporter files cwd (ImporterV2.Many ([] : list (Entry Data)))
    = ([], Thrown ONLY_UNDER_SRC).
Proof. split; reflexivity. Qed.

(** * Further properties of the code *)

(** ** The value serializer on arrays and on its own output *)





Lemma sval_array_ind (P : sval → Prop) :
  P SNull → (∀ s, P (SString s)) → (∀ x, P (SNumber x)) →
  (∀ b, P (SBoolean b)) →
  (∀ elems, Forall P elems → P (SArray elems)) →
  ∀ s, P s.
Proof.
  intros Hnull Hstr Hnum Hbool Harr.
  fix IH 1. intros [ | s | x | b | elems].
  - exact Hnull.
  - apply Hstr.
  - apply Hnum.
  - apply Hbool.
  - apply Harr. induction elems as [|e elems IHelems]; constructor.
    + apply IH.
    + exact IHelems.
Qed.

(** X2. Serializing is idempotent: whatever the serializer returns, read back
    as a value, serializes to itself. *)
Theorem toSerializable_of_sval (s : sval) :
  toSerializable (of_sval s) = Normal s.
Proof.
  induction s as [ | s | x | b | elems IH] using sval_array_ind;
    try reflexivity.
  assert (mapM toSerializable (of_sval <$> elems) = Normal elems) as Helems.
  { induction IH as [|e elems He _ IHelems]; [done|].
    rewrite fmap_cons. cbn [mapM]. by rewrite He, IHelems. }
  change (mapM toSerializable (of_sval <$> elems)
            ≫= (λ rs, Normal (SArray rs)) = Normal (SArray elems)).
  by rewrite Helems.
Qed.

(** ** The projector, field by field *)

Section ProjectorFields.
Context (tags : gmap string value) (fileName mtime : string) (fileSize : float).
Context (excludeTags : gset string).

(** The loop of the explicit-selection branch, name by name. *)
Lemma selected_loop_lookup (data0 : gmap string field) (X : gset string) :
  ∃ data,
    set_fold
      (λ tagName (acc : completion (gmap string field)),
         data ← acc;
         if bool_decide (tagName ∉ excludeTags) then
           if negb (nullish (default VUndefined (tags !! tagName)))
           then v ← toSerializable (default VUndefined (tags !! tagName));
                Normal (<[tagName := Scalar v]> data)
           else Normal data
         else Normal data)
      (Normal data0) X = Normal data ∧
    ∀ k, data !! k =
         if bool_decide (k ∈ X) && bool_decide (k ∉ excludeTags)
            && negb (nullish (default VUndefined (tags !! k)))
         then Some (Scalar (serialized (default VUndefined (tags !! k))))
         else data0 !! k.
Proof.
  pose (P := λ (r : completion (gmap string field)) (Y : gset string),
    ∃ data, r = Normal data ∧
    ∀ k, data !! k =
         if bool_decide (k ∈ Y) && bool_decide (k ∉ excludeTags)
            && negb (nullish (default VUndefined (tags !! k)))
         then Some (Scalar (serialized (default VUndefined (tags !! k))))
         else data0 !! k).
  apply (set_fold_ind_L P); unfold P; clear P.
  - exists data0. split; [done|]. intros k.
    by rewrite (bool_decide_eq_false_2 (k ∈ (∅ : gset string)))
      by apply not_elem_of_empty.
  - intros x X' r Hx (data & -> & Hdata). simpl.
    assert (∀ k, k ≠ x →
              bool_decide (k ∈ {[x]} ∪ X') = bool_decide (k ∈ X')) as Hother.
    { intros k Hk. apply bool_decide_ext. rewrite elem_of_union,
        elem_of_singleton. tauto. }
    assert (bool_decide (x ∈ {[x]} ∪ X') = true) as Hsame.
    { apply bool_decide_eq_true. apply elem_of_union. left.
      by apply elem_of_singleton. }
    assert (data !! x = data0 !! x) as Hfresh.
    { rewrite Hdata. by rewrite (bool_decide_eq_false_2 (x ∈ X')). }
    destruct (bool_decide (x ∉ excludeTags)) eqn:Hex;
      [destruct (negb (nullish (default VUndefined (tags !! x)))) eqn:Hnull|].
    + rewrite toSerializable_serialized. simpl. eexists. split; [done|].
      intros k. destruct (decide (k = x)) as [->|Hk].
      * by rewrite lookup_insert_eq, Hsame, Hex, Hnull.
      * rewrite lookup_insert_ne by done. rewrite Hother by done. apply Hdata.
    + exists data. split; [done|]. intros k.
      destruct (decide (k = x)) as [->|Hk].
      * by rewrite Hsame, Hex, Hnull.
      * rewrite Hother by done. apply Hdata.
    + exists data. split; [done|]. intros k.
      destruct (decide (k = x)) as [->|Hk].
      * by rewrite Hsame, Hex.
      * rewrite Hother by done. apply Hdata.
Qed.

(** Step over the [rawExif] statement that ends [buildImageData]. *)
Ltac raw_tail includeRawExif :=
  simpl; destruct includeRawExif;
  [ destruct (raw_loop tags) as (? & -> & _); simpl; eexists; split; [done|]
  | eexists; split; [done|] ].

(** Every field of the output other than [rawExif], in either mode: [base]
    is what the two base fields give under that name, [copied] what the
    raw record adds to it. *)
Lemma buildImageData_lookup
    (tagsToExtract : option (gset string)) (includeRawExif : bool) :
  ∃ data,
    buildImageData tags fileName mtime fileSize tagsToExtract excludeTags
      includeRawExif = Normal data ∧
    ∀ k, k ≠ "rawExif" →
      data !! k =
        let base :=
          (<["mtime" := Scalar (SString mtime)]>
             (<["fileName" := Scalar (SString fileName)]> ∅)
           : gmap string field) !! k in
        let copied :=
          match tags !! k with
          | Some v => if nullish v then base else Some (Scalar (serialized v))
          | None => base
          end in
        match tagsToExtract with
        | None =>
            if String.eqb k "FileSize" then Some (Scalar (SNumber fileSize))
            else if bool_decide (k ∉ excludeTags) then copied else base
        | Some X =>
            if bool_decide (k ∈ X) && bool_decide (k ∉ excludeTags)
            then if String.eqb k "FileSize"
                 then Some (Scalar (SNumber fileSize)) else copied
            else base
        end.
Proof.
  unfold buildImageData. cbv zeta.
  set (base := <["mtime" := Scalar (SString mtime)]>
                 (<["fileName" := Scalar (SString fileName)]> ∅)).
  destruct tagsToExtract as [X|].
  - case_bool_decide as Hsize.
    + destruct (selected_loop_lookup base X) as (data & -> & Hdata). simpl.
      assert (∀ k, data !! k =
        if bool_decide (k ∈ X) && bool_decide (k ∉ excludeTags)
        then match tags !! k with
             | Some v => if nullish v then base !! k
                         else Some (Scalar (serialized v))
             | None => base !! k
             end
        else base !! k) as Hdata'.
      { intros k. rewrite Hdata.
        destruct (bool_decide (k ∈ X) && bool_decide (k ∉ excludeTags));
          [|done]. simpl.
        destruct (tags !! k) as [v|]; simpl; [|done]. by destruct (nullish v). }
      destruct (bool_decide ("FileSize" ∈ X)
                && bool_decide ("FileSize" ∉ excludeTags)) eqn:Hc.
      * raw_tail includeRawExif; intros k Hk; try rewrite lookup_insert_ne by done;
          (destruct (String.eqb_spec k "FileSize") as [->|Hne];
           [by rewrite lookup_insert_eq, Hc
           |rewrite lookup_insert_ne by done; apply Hdata']).
      * raw_tail includeRawExif; intros k Hk; try rewrite lookup_insert_ne by done;
          (rewrite Hdata'; destruct (String.eqb_spec k "FileSize") as [->|Hne];
           [by rewrite Hc | done]).
    + assert (X = ∅) as -> by (apply leibniz_equiv, size_empty_inv; lia).
      raw_tail includeRawExif; intros k Hk; try rewrite lookup_insert_ne by done;
        by rewrite (bool_decide_eq_false_2 (k ∈ (∅ : gset string)))
          by apply not_elem_of_empty.
  - destruct (all_loop excludeTags base tags) as (data & -> & Hdata). simpl.
    raw_tail includeRawExif; intros k Hk; try rewrite lookup_insert_ne by done;
      (destruct (String.eqb_spec k "FileSize") as [->|Hne];
       [by rewrite lookup_insert_eq
       |rewrite lookup_insert_ne by done; rewrite Hdata;
        destruct (tags !! k) as [v|]; [|by destruct (bool_decide _)];
        destruct (bool_decide (k ∉ excludeTags)), (nullish v); done]).
Qed.

End ProjectorFields.

(** X5. A name of the exclusion set is absent from the output, be it selected
    or not, in every mode; the one exception is [FileSize] in extract-all
    mode (and the base and [rawExif] fields are not tags). *)
Theorem excluded_tag_absent
    (tags : gmap string value) (fileName mtime : string) (fileSize : float)
    (tagsToExtract : option (gset string)) (excludeTags : gset string)
    (includeRawExif : bool) (T : string) :
  T ∈ excludeTags →
  T ≠ "fileName" → T ≠ "mtime" → T ≠ "rawExif" →
  T ≠ "FileSize" ∨ tagsToExtract ≠ None →
  ∃ data,
    buildImageData tags fileName mtime fileSize tagsToExtract excludeTags
      includeRawExif = Normal data ∧
    data !! T = None.
Proof. apply buildImageData_excluded. Qed.

(** X6. The two base fields are in the output as given whenever the raw
    record has no tag of their names. *)
Theorem buildImageData_base_fields
    (tags : gmap string value) (fileName mtime : string) (fileSize : float)
    (tagsToExtract : option (gset string)) (excludeTags : gset string)
    (includeRawExif : bool) :
  tags !! "fileName" = None → tags !! "mtime" = None →
  ∃ data,
    buildImageData tags fileName mtime fileSize tagsToExtract excludeTags
      includeRawExif = Normal data ∧
    data !! "fileName" = Some (Scalar (SString fileName)) ∧
    data !! "mtime" = Some (Scalar (SString mtime)).
Proof.
  intros Hf Hm.
  destruct (buildImageData_lookup tags fileName mtime fileSize excludeTags
              tagsToExtract includeRawExif) as (data & Hdata & Hlook).
  exists data. split; [exact Hdata|]. cbv zeta in Hlook.
  rewrite !Hlook by done. rewrite Hf, Hm.
  destruct tagsToExtract as [X|]; simpl.
  - split.
    + by destruct (bool_decide ("fileName" ∈ X) && bool_decide ("fileName" ∉ excludeTags)).
    + by destruct (bool_decide ("mtime" ∈ X) && bool_decide ("mtime" ∉ excludeTags)).
  - split.
    + by destruct (bool_decide ("fileName" ∉ excludeTags)).
    + by destruct (bool_decide ("mtime" ∉ excludeTags)).
Qed.

Lemma excluded_tag_absent_Directory :
  ∃ data,
    buildImageData Samples.raw_tags "photo.jpg" "2024-01-01T00:00:00.000Z"
      2048 None {["Directory"]} true = Normal data ∧
    data !! "Directory" = None.
Proof.
  apply (excluded_tag_absent Samples.raw_tags "photo.jpg"
           "2024-01-01T00:00:00.000Z" 2048 None {["Directory"]} true
           "Directory"); [by apply elem_of_singleton | done.. | by left].
Defined.

Lemma buildImageData_base_fields_sample :
  ∃ data,
    buildImageData Samples.raw_tags "photo.jpg" "2024-01-01T00:00:00.000Z"
      2048 None ∅ true = Normal data ∧
    data !! "fileName" = Some (Scalar (SString "photo.jpg")) ∧
    data !! "mtime" = Some (Scalar (SString "2024-01-01T00:00:00.000Z")).
Proof.
  apply (buildImageData_base_fields Samples.raw_tags "photo.jpg"
           "2024-01-01T00:00:00.000Z" 2048 None ∅ true); reflexivity.
Defined.

(** ** The projector on any record *)

Section AnyProjector.
Context (tags : gmap string jsvalue) (excludeTags : gset string).

Lemma lookup_set_property {A} (name k : string) (v : A) (o : gmap string A) :
  Any.set_property name v o !! k =
  if String.eqb k name && negb (String.eqb name "__proto__")
  then Some v else o !! k.
Proof.
  unfold Any.set_property.
  destruct (String.eqb_spec name "__proto__") as [->|Hproto];
    [by rewrite andb_false_r|].
  rewrite andb_true_r. destruct (String.eqb_spec k name) as [->|Hk].
  - by rewrite lookup_insert_eq.
  - by rewrite lookup_insert_ne.
Qed.

(** The loop of the extract-all branch. *)
Lemma any_all_loop (data0 : gmap string field) (m : gmap string jsvalue) :
  match
    map_fold
      (λ tagName tagValue (acc : completion (gmap string field)),
         data ← acc;
         if negb (Any.nullish tagValue) && bool_decide (tagName ∉ excludeTags)
         then v ← Any.toSerializable tagValue;
              Normal (Any.set_property tagName (Scalar v) data)
         else Normal data)
      (Normal data0) m
  with
  | Normal data =>
      (∀ k v, m !! k = Some v → Any.nullish v = false → k ∉ excludeTags →
              returns (Any.toSerializable v)) ∧
      ∀ k, data !! k =
           match m !! k with
           | Some v =>
               if negb (Any.nullish v) && bool_decide (k ∉ excludeTags)
                  && negb (String.eqb k "__proto__")
               then Scalar <$> returned (Any.toSerializable v)
               else data0 !! k
           | None => data0 !! k
           end
  | Thrown e =>
      ∃ k v, m !! k = Some v ∧ Any.nullish v = false ∧ (k ∉ excludeTags) ∧
             Any.toSerializable v = Thrown e
  end.
Proof.
  apply (map_fold_weak_ind (λ r m,
    match r with
    | Normal data =>
        (∀ k v, m !! k = Some v → Any.nullish v = false → k ∉ excludeTags →
                returns (Any.toSerializable v)) ∧
        ∀ k, data !! k =
             match m !! k with
             | Some v =>
                 if negb (Any.nullish v) && bool_decide (k ∉ excludeTags)
                    && negb (String.eqb k "__proto__")
                 then Scalar <$> returned (Any.toSerializable v)
                 else data0 !! k
             | None => data0 !! k
             end
    | Thrown e =>
        ∃ k v, m !! k = Some v ∧ Any.nullish v = false ∧ (k ∉ excludeTags) ∧
               Any.toSerializable v = Thrown e
    end)).
  - split; [intros k v Hk; by rewrite lookup_empty in Hk|].
    intros k. by rewrite lookup_empty.
  - intros i x m' r Hi IH. destruct r as [data|e]; simpl.
    + destruct IH as [Hreturns Hdata].
      destruct (negb (Any.nullish x) && bool_decide (i ∉ excludeTags)) eqn:Hc.
      * apply andb_true_iff in Hc as Hc'. destruct Hc' as [Hnull Hex].
        apply negb_true_iff in Hnull. apply bool_decide_eq_true in Hex.
        destruct (Any.toSerializable x) as [s|e] eqn:Hx; simpl.
        -- split.
           ++ intros k v Hk Hv Hkex. destruct (decide (i = k)) as [->|Hne].
              ** rewrite lookup_insert_eq in Hk. injection Hk as <-.
                 by exists s.
              ** rewrite lookup_insert_ne in Hk by done.
                 by apply (Hreturns k).
           ++ intros k. rewrite lookup_set_property.
              destruct (decide (i = k)) as [->|Hne].
              ** rewrite lookup_insert_eq, Hc, String.eqb_refl, Hx. simpl.
                 destruct (String.eqb k "__proto__"); simpl; [|done].
                 by rewrite Hdata, Hi.
              ** rewrite lookup_insert_ne by done.
                 rewrite (proj2 (String.eqb_neq k i)) by done. apply Hdata.
        -- exists i, x. by rewrite lookup_insert_eq.
      * split.
        -- intros k v Hk Hv Hkex. destruct (decide (i = k)) as [->|Hne].
           ++ rewrite lookup_insert_eq in Hk. injection Hk as <-.
              rewrite Hv in Hc. simpl in Hc.
              by apply bool_decide_eq_false in Hc.
           ++ rewrite lookup_insert_ne in Hk by done. by apply (Hreturns k).
        -- intros k. destruct (decide (i = k)) as [->|Hne].
           ++ by rewrite lookup_insert_eq, Hc, Hdata, Hi.
           ++ rewrite lookup_insert_ne by done. apply Hdata.
    + destruct IH as (k & v & Hk & Hv & Hex & He).
      exists k, v. split; [|done].
      rewrite lookup_insert_ne; [done|]. intros ->. congruence.
Qed.

(** The loop that fills [rawExif]. *)
Lemma any_raw_loop (m : gmap string jsvalue) :
  match
    map_fold
      (λ tagName tagValue (acc : completion (gmap string sval)),
         rawExif ← acc;
         if negb (Any.nullish tagValue)
         then v ← Any.toSerializable tagValue;
              Normal (Any.set_property tagName v rawExif)
         else Normal rawExif)
      (Normal ∅) m
  with
  | Normal rawExif =>
      (∀ k v, m !! k = Some v → Any.nullish v = false →
              returns (Any.toSerializable v)) ∧
      ∀ k, rawExif !! k =
           match m !! k with
           | Some v =>
               if negb (Any.nullish v) && negb (String.eqb k "__proto__")
               then returned (Any.toSerializable v)
               else None
           | None => None
           end
  | Thrown e =>
      ∃ k v, m !! k = Some v ∧ Any.nullish v = false ∧
             Any.toSerializable v = Thrown e
  end.
Proof.
  apply (map_fold_weak_ind (λ r m,
    match r with
    | Normal rawExif =>
        (∀ k v, m !! k = Some v → Any.nullish v = false →
                returns (Any.toSerializable v)) ∧
        ∀ k, rawExif !! k =
             match m !! k with
             | Some v =>
                 if negb (Any.nullish v) && negb (String.eqb k "__proto__")
                 then returned (Any.toSerializable v)
                 else None
             | None => None
             end
    | Thrown e =>
        ∃ k v, m !! k = Some v ∧ Any.nullish v = false ∧
               Any.toSerializable v = Thrown e
    end)).
  - split; [intros k v Hk; by rewrite lookup_empty in Hk|].
    intros k. by rewrite !lookup_empty.
  - intros i x m' r Hi IH. destruct r as [rawExif|e]; simpl.
    + destruct IH as [Hreturns Hraw].
      destruct (Any.nullish x) eqn:Hnull; simpl.
      * split.
        -- intros k v Hk Hv. destruct (decide (i = k)) as [->|Hne].
           ++ rewrite lookup_insert_eq in Hk. injection Hk as <-. congruence.
           ++ rewrite lookup_insert_ne in Hk by done. by apply (Hreturns k).
        -- intros k. destruct (decide (i = k)) as [->|Hne].
           ++ by rewrite lookup_insert_eq, Hnull, Hraw, Hi.
           ++ rewrite lookup_insert_ne by done. apply Hraw.
      * destruct (Any.toSerializable x) as [s|e] eqn:Hx; simpl.
        -- split.
           ++ intros k v Hk Hv. destruct (decide (i = k)) as [->|Hne].
              ** rewrite lookup_insert_eq in Hk. injection Hk as <-.
                 by exists s.
              ** rewrite lookup_insert_ne in Hk by done.
                 by apply (Hreturns k).
           ++ intros k. rewrite lookup_set_property.
              destruct (decide (i = k)) as [->|Hne].
              ** rewrite lookup_insert_eq, Hnull, String.eqb_refl, Hx. simpl.
                 destruct (String.eqb k "__proto__"); simpl; [|done].
                 by rewrite Hraw, Hi.
              ** rewrite lookup_insert_ne by done.
                 rewrite (proj2 (String.eqb_neq k i)) by done. apply Hraw.
        -- exists i, x. by rewrite lookup_insert_eq.
    + destruct IH as (k & v & Hk & Hv & He).
      exists k, v. split; [|done].
      rewrite lookup_insert_ne; [done|]. intros ->. congruence.
Qed.

(** The loop of the explicit-selection branch. *)
Lemma any_selected_loop (data0 : gmap string field) (X : gset string) :
  match
    set_fold
      (λ tagName (acc : completion (gmap string field)),
         data ← acc;
         if bool_decide (tagName ∉ excludeTags) then
           if negb (Any.nullish (Any.get_property tags tagName))
           then v ← Any.toSerializable (Any.get_property tags tagName);
                Normal (Any.set_property tagName (Scalar v) data)
           else Normal data
         else Normal data)
      (Normal data0) X
  with
  | Normal data =>
      (∀ k, k ∈ X → k ∉ excludeTags →
            Any.nullish (Any.get_property tags k) = false →
            returns (Any.toSerializable (Any.get_property tags k))) ∧
      ∀ k, data !! k =
           if bool_decide (k ∈ X) && bool_decide (k ∉ excludeTags)
              && negb (Any.nullish (Any.get_property tags k))
              && negb (String.eqb k "__proto__")
           then Scalar <$> returned (Any.toSerializable (Any.get_property tags k))
           else data0 !! k
  | Thrown e =>
      ∃ k, k ∈ X ∧ (k ∉ excludeTags) ∧
           Any.nullish (Any.get_property tags k) = false ∧
           Any.toSerializable (Any.get_property tags k) = Thrown e
  end.
Proof.
  pose (P := λ (r : completion (gmap string field)) (Y : gset string),
    match r with
    | Normal data =>
        (∀ k, k ∈ Y → k ∉ excludeTags →
              Any.nullish (Any.get_property tags k) = false →
              returns (Any.toSerializable (Any.get_property tags k))) ∧
        ∀ k, data !! k =
             if bool_decide (k ∈ Y) && bool_decide (k ∉ excludeTags)
                && negb (Any.nullish (Any.get_property tags k))
                && negb (String.eqb k "__proto__")
             then Scalar <$> returned (Any.toSerializable (Any.get_property tags k))
             else data0 !! k
    | Thrown e =>
        ∃ k, k ∈ Y ∧ (k ∉ excludeTags) ∧
             Any.nullish (Any.get_property tags k) = false ∧
             Any.toSerializable (Any.get_property tags k) = Thrown e
    end).
  apply (set_fold_ind_L P); unfold P; clear P.
  - split; [intros k Hk; by apply not_elem_of_empty in Hk|].
    intros k.
    by rewrite (bool_decide_eq_false_2 (k ∈ (∅ : gset string)))
      by apply not_elem_of_empty.
  - intros x X' r Hx IH. destruct r as [data|e]; simpl.
    + destruct IH as [Hreturns Hdata].
      assert (∀ k, k ≠ x →
                bool_decide (k ∈ {[x]} ∪ X') = bool_decide (k ∈ X')) as Hother.
      { intros k Hk. apply bool_decide_ext. rewrite elem_of_union,
          elem_of_singleton. tauto. }
      assert (bool_decide (x ∈ {[x]} ∪ X') = true) as Hsame.
      { apply bool_decide_eq_true. apply elem_of_union. left.
        by apply elem_of_singleton. }
      assert (data !! x = data0 !! x) as Hfresh.
      { rewrite Hdata. by rewrite (bool_decide_eq_false_2 (x ∈ X')). }
      assert (∀ k, k ∈ {[x]} ∪ X' → k = x ∨ k ∈ X') as Hsplit.
      { intros k [->%elem_of_singleton|Hk]%elem_of_union; [by left|by right]. }
      destruct (bool_decide (x ∉ excludeTags)) eqn:Hex;
        [destruct (negb (Any.nullish (Any.get_property tags x))) eqn:Hnull;
         [destruct (Any.toSerializable (Any.get_property tags x))
            as [s|e] eqn:Hs|]|]; simpl.
      * split.
        -- intros k [->|Hk]%Hsplit Hkex Hknull; [by exists s|].
           by apply Hreturns.
        -- intros k. rewrite lookup_set_property.
           destruct (decide (k = x)) as [->|Hk].
           ++ rewrite String.eqb_refl, Hsame, Hex, Hnull, Hs. simpl.
              destruct (String.eqb x "__proto__"); simpl; [|done].
              exact Hfresh.
           ++ rewrite (proj2 (String.eqb_neq k x)) by done. simpl.
              rewrite Hother by done. apply Hdata.
      * exists x. apply bool_decide_eq_true in Hex.
        apply negb_true_iff in Hnull.
        split; [apply elem_of_union; left; by apply elem_of_singleton|done].
      * split.
        -- intros k [->|Hk]%Hsplit Hkex Hknull;
             [by rewrite Hknull in Hnull|]. by apply Hreturns.
        -- intros k. destruct (decide (k = x)) as [->|Hk].
           ++ rewrite Hsame, Hex, Hnull. simpl. exact Hfresh.
           ++ rewrite Hother by done. apply Hdata.
      * split.
        -- intros k [->|Hk]%Hsplit Hkex Hknull;
             [by apply bool_decide_eq_false in Hex|]. by apply Hreturns.
        -- intros k. destruct (decide (k = x)) as [->|Hk].
           ++ rewrite Hsame, Hex. simpl. exact Hfresh.
           ++ rewrite Hother by done. apply Hdata.
    + destruct IH as (k & Hk & Hrest). exists k.
      split; [apply elem_of_union; by right|done].
Qed.

(** Every field of the output other than [rawExif], in either mode, when
    the call returns; and when it throws, it is a call of the serializer
    that did. *)
Lemma any_buildImageData_lookup
    (fileName mtime : string) (fileSize : float)
    (tagsToExtract : option (gset string)) (includeRawExif : bool) :
  match
    Any.buildImageData tags fileName mtime fileSize tagsToExtract excludeTags
      includeRawExif
  with
  | Normal data =>
      (∀ v, Any.serializes tags tagsToExtract excludeTags includeRawExif v →
            returns (Any.toSerializable v)) ∧
      ∀ k, k ≠ "rawExif" →
        data !! k =
          let base :=
            (<["mtime" := Scalar (SString mtime)]>
               (<["fileName" := Scalar (SString fileName)]> ∅)
             : gmap string field) !! k in
          match tagsToExtract with
          | None =>
              if String.eqb k "FileSize" then Some (Scalar (SNumber fileSize))
              else
                match tags !! k with
                | Some v =>
                    if negb (Any.nullish v) && bool_decide (k ∉ excludeTags)
                       && negb (String.eqb k "__proto__")
                    then Scalar <$> returned (Any.toSerializable v)
                    else base
                | None => base
                end
          | Some X =>
              if bool_decide (k ∈ X) && bool_decide (k ∉ excludeTags)
              then if String.eqb k "FileSize"
                   then Some (Scalar (SNumber fileSize))
                   else if negb (Any.nullish (Any.get_property tags k))
                           && negb (String.eqb k "__proto__")
                        then Scalar <$> returned (Any.toSerializable
                                                  (Any.get_property tags k))
                        else base
              else base
          end
  | Thrown e =>
      ∃ v, Any.serializes tags tagsToExtract excludeTags includeRawExif v ∧
           Any.toSerializable v = Thrown e
  end.
Proof.
  unfold Any.buildImageData, Any.serializes. cbv zeta.
  set (base := <["mtime" := Scalar (SString mtime)]>
                 (<["fileName" := Scalar (SString fileName)]> ∅)).
  pose proof (any_raw_loop tags) as Hraw.
  destruct tagsToExtract as [X|].
  - case_bool_decide as Hsize.
    + pose proof (any_selected_loop base X) as Hloop.
      destruct (set_fold _ _ X) as [data|e]; simpl.
      * destruct Hloop as [Hreturns Hdata].
        assert (∀ k, k ≠ "rawExif" →
          (if bool_decide ("FileSize" ∈ X)
              && bool_decide ("FileSize" ∉ excludeTags)
           then <["FileSize" := Scalar (SNumber fileSize)]> data
           else data) !! k =
          if bool_decide (k ∈ X) && bool_decide (k ∉ excludeTags)
          then if String.eqb k "FileSize"
               then Some (Scalar (SNumber fileSize))
               else if negb (Any.nullish (Any.get_property tags k))
                       && negb (String.eqb k "__proto__")
                    then Scalar <$> returned (Any.toSerializable
                                              (Any.get_property tags k))
                    else base !! k
          else base !! k) as Hcurated.
        { intros k Hk.
          destruct (bool_decide ("FileSize" ∈ X)
                    && bool_decide ("FileSize" ∉ excludeTags)) eqn:Hc;
            destruct (String.eqb_spec k "FileSize") as [->|Hne].
          - by rewrite lookup_insert_eq, Hc.
          - rewrite lookup_insert_ne by done. rewrite Hdata.
            destruct (bool_decide (k ∈ X) && bool_decide (k ∉ excludeTags));
              simpl; [|done].
            by destruct (negb (Any.nullish (Any.get_property tags k))
                         && negb (String.eqb k "__proto__")).
          - rewrite Hdata, Hc. done.
          - rewrite Hdata.
            destruct (bool_decide (k ∈ X) && bool_decide (k ∉ excludeTags));
              simpl; [|done].
            by destruct (negb (Any.nullish (Any.get_property tags k))
                         && negb (String.eqb k "__proto__")). }
        destruct (bool_decide ("FileSize" ∈ X)
                  && bool_decide ("FileSize" ∉ excludeTags));
          simpl; destruct includeRawExif.
        all: try (destruct (map_fold _ _ tags) as [rawExif|e]; simpl).
        all: try (split;
          [ intros v [(k & Hk & Hex & -> & Hnull)|[Hr (k & Hk & Hnull)]];
            [by apply Hreturns | first [by apply (proj1 Hraw k) | done]]
          | intros k Hk; try rewrite lookup_insert_ne by done;
            by apply Hcurated ]).
        all: destruct Hraw as (k & v & Hk & Hnull & He);
          exists v; split; [right; split; [done|by exists k]|done].
      * destruct Hloop as (k & Hk & Hex & Hnull & He).
        exists (Any.get_property tags k). split; [|done].
        left. by exists k.
    + assert (X = ∅) as -> by (apply leibniz_equiv, size_empty_inv; lia).
      simpl. destruct includeRawExif.
      * destruct (map_fold _ _ tags) as [rawExif|e]; simpl.
        -- split.
           ++ intros v [(k & Hk & _)|[_ (k & Hk & Hnull)]];
                [by apply not_elem_of_empty in Hk | by apply (proj1 Hraw k)].
           ++ intros k Hk. rewrite lookup_insert_ne by done.
              by rewrite (bool_decide_eq_false_2 (k ∈ (∅ : gset string)))
                by apply not_elem_of_empty.
        -- destruct Hraw as (k & v & Hk & Hnull & He).
           exists v. split; [right; split; [done|by exists k]|done].
      * split.
        -- intros v [(k & Hk & _)|[Hr _]];
             [by apply not_elem_of_empty in Hk | done].
        -- intros k Hk.
           by rewrite (bool_decide_eq_false_2 (k ∈ (∅ : gset string)))
             by apply not_elem_of_empty.
  - pose proof (any_all_loop base tags) as Hloop.
    destruct (map_fold _ (Normal base) tags) as [data|e]; simpl.
    + destruct Hloop as [Hreturns Hdata].
      assert (∀ k,
        (<["FileSize" := Scalar (SNumber fileSize)]> data) !! k =
        if String.eqb k "FileSize" then Some (Scalar (SNumber fileSize))
        else
          match tags !! k with
          | Some v =>
              if negb (Any.nullish v) && bool_decide (k ∉ excludeTags)
                 && negb (String.eqb k "__proto__")
              then Scalar <$> returned (Any.toSerializable v)
              else base !! k
          | None => base !! k
          end) as Hcurated.
      { intros k. destruct (String.eqb_spec k "FileSize") as [->|Hne].
        - by rewrite lookup_insert_eq.
        - rewrite lookup_insert_ne by done. apply Hdata. }
      destruct includeRawExif.
      * destruct (map_fold _ _ tags) as [rawExif|e]; simpl.
        -- split.
           ++ intros v [(k & Hk & Hnull & Hex)|[_ (k & Hk & Hnull)]];
                [by apply (Hreturns k) | by apply (proj1 Hraw k)].
           ++ intros k Hk. rewrite lookup_insert_ne by done. apply Hcurated.
        -- destruct Hraw as (k & v & Hk & Hnull & He).
           exists v. split; [right; split; [done|by exists k]|done].
      * split.
        -- intros v [(k & Hk & Hnull & Hex)|[Hr _]];
             [by apply (Hreturns k) | done].
        -- intros k Hk. apply Hcurated.
    + destruct Hloop as (k & v & Hk & Hnull & Hex & He).
      exists v. split; [|done]. left. by exists k.
Qed.

End AnyProjector.

(** X3. Explicit-selection mode.  When [buildImageData] returns, a selected
    name that is not excluded holds the serialized [tags[name]], a member
    of [Object.prototype] where the record has no field of that name,
    unless that value is [null] or [undefined]; a name that is unselected,
    excluded or without such a value is absent, and so is [__proto__];
    [FileSize], when selected and not excluded, is the stat size.  The
    call returns when the serializer does on the values it is given, and
    otherwise throws what the serializer throws on one of them. *)
Theorem buildImageData_selected_fields
    (tags : gmap string jsvalue) (fileName mtime : string) (fileSize : float)
    (tagsToExtract excludeTags : gset string) (includeRawExif : bool) :
  (∀ data,
     Any.buildImageData tags fileName mtime fileSize (Some tagsToExtract)
       excludeTags includeRawExif = Normal data →
     (∀ k,
        k ∈ tagsToExtract → k ∉ excludeTags →
        k ≠ "FileSize" → k ≠ "rawExif" → k ≠ "__proto__" →
        Any.nullish (Any.get_property tags k) = false →
        ∃ r, Any.toSerializable (Any.get_property tags k) = Normal r ∧
             data !! k = Some (Scalar r)) ∧
     (∀ k,
        k ∉ tagsToExtract ∨ k ∈ excludeTags ∨ k = "__proto__" ∨
          (k ≠ "FileSize" ∧ Any.nullish (Any.get_property tags k) = true) →
        k ≠ "fileName" → k ≠ "mtime" → k ≠ "rawExif" →
        data !! k = None) ∧
     ("FileSize" ∈ tagsToExtract → "FileSize" ∉ excludeTags →
      data !! "FileSize" = Some (Scalar (SNumber fileSize)))) ∧
  ((∀ v, Any.serializes tags (Some tagsToExtract) excludeTags includeRawExif v →
         returns (Any.toSerializable v)) →
   returns (Any.buildImageData tags fileName mtime fileSize
              (Some tagsToExtract) excludeTags includeRawExif)) ∧
  (∀ e,
     Any.buildImageData tags fileName mtime fileSize (Some tagsToExtract)
       excludeTags includeRawExif = Thrown e →
     ∃ v, Any.serializes tags (Some tagsToExtract) excludeTags includeRawExif v ∧
          Any.toSerializable v = Thrown e).
Proof.
  pose proof (any_buildImageData_lookup tags excludeTags fileName mtime
                fileSize (Some tagsToExtract) includeRawExif) as Hspec.
  destruct (Any.buildImageData tags fileName mtime fileSize
              (Some tagsToExtract) excludeTags includeRawExif)
    as [data|e]; cbv zeta in Hspec.
  - destruct Hspec as [Hreturns Hlook].
    split; [|split; [intros _; by exists data | done]].
    intros ? [= <-]. split; [|split].
    + intros k Hsel Hex Hsize Hraw Hproto Hnull.
      destruct (Hreturns (Any.get_property tags k)) as [r Hr];
        [left; by exists k|].
      exists r. split; [done|]. rewrite Hlook by done.
      rewrite !bool_decide_eq_true_2 by done. simpl.
      rewrite (proj2 (String.eqb_neq _ _) Hsize),
        (proj2 (String.eqb_neq _ _) Hproto), Hnull, Hr. done.
    + intros k Hout Hf Hm Hraw. rewrite Hlook by done.
      assert ((<["mtime" := Scalar (SString mtime)]>
                 (<["fileName" := Scalar (SString fileName)]> ∅)
               : gmap string field) !! k = None) as ->
        by (by rewrite !lookup_insert_ne, lookup_empty).
      destruct (bool_decide (k ∈ tagsToExtract)) eqn:Hsel; [|done].
      destruct (bool_decide (k ∉ excludeTags)) eqn:Hex; [|done]. simpl.
      apply bool_decide_eq_true in Hsel, Hex.
      destruct Hout as [Hout|[Hout|[->|[Hsize Hnull]]]]; [done..| |].
      * rewrite String.eqb_refl, andb_false_r.
        by rewrite (proj2 (String.eqb_neq "__proto__" "FileSize")).
      * by rewrite (proj2 (String.eqb_neq _ _) Hsize), Hnull.
    + intros Hsel Hex. rewrite Hlook by done.
      by rewrite !bool_decide_eq_true_2.
  - split; [done|]. split.
    + intros Hreturns. destruct Hspec as (v & Hv & He).
      destruct (Hreturns v Hv) as [r Hr]. congruence.
    + by intros ? [= <-].
Qed.

(** X4. Extract-all mode.  When [buildImageData] returns, every field of
    the record's own whose value is neither [null] nor [undefined] and
    whose name is not excluded is in the output, serialized, also one
    named [fileName] or [mtime], which then replaces the base field; a
    name with no such field is absent unless it is a base field or
    [FileSize], and so is [__proto__], even as a field of the record's own.
    The call returns when the serializer does on the values it is given,
    and otherwise throws what the serializer throws on one of them. *)
Theorem buildImageData_all_fields
    (tags : gmap string jsvalue) (fileName mtime : string) (fileSize : float)
    (excludeTags : gset string) (includeRawExif : bool) :
  (∀ data,
     Any.buildImageData tags fileName mtime fileSize None excludeTags
       includeRawExif = Normal data →
     (∀ k v,
        tags !! k = Some v → Any.nullish v = false → k ∉ excludeTags →
        k ≠ "FileSize" → k ≠ "rawExif" → k ≠ "__proto__" →
        ∃ r, Any.toSerializable v = Normal r ∧ data !! k = Some (Scalar r)) ∧
     (∀ k,
        k ∈ excludeTags ∨ tags !! k = None ∨ k = "__proto__" ∨
          (∃ v, tags !! k = Some v ∧ Any.nullish v = true) →
        k ≠ "fileName" → k ≠ "mtime" → k ≠ "FileSize" → k ≠ "rawExif" →
        data !! k = None)) ∧
  ((∀ v, Any.serializes tags None excludeTags includeRawExif v →
         returns (Any.toSerializable v)) →
   returns (Any.buildImageData tags fileName mtime fileSize None excludeTags
              includeRawExif)) ∧
  (∀ e,
     Any.buildImageData tags fileName mtime fileSize None excludeTags
       includeRawExif = Thrown e →
     ∃ v, Any.serializes tags None excludeTags includeRawExif v ∧
          Any.toSerializable v = Thrown e).
Proof.
  pose proof (any_buildImageData_lookup tags excludeTags fileName mtime
                fileSize None includeRawExif) as Hspec.
  destruct (Any.buildImageData tags fileName mtime fileSize None excludeTags
              includeRawExif) as [data|e]; cbv zeta in Hspec.
  - destruct Hspec as [Hreturns Hlook].
    split; [|split; [intros _; by exists data | done]].
    intros ? [= <-]. split.
    + intros k v Hv Hnull Hex Hsize Hraw Hproto.
      destruct (Hreturns v) as [r Hr]; [left; by exists k|].
      exists r. split; [done|]. rewrite Hlook by done.
      rewrite (proj2 (String.eqb_neq _ _) Hsize), Hv, Hnull,
        (proj2 (String.eqb_neq _ _) Hproto), Hr.
      by rewrite bool_decide_eq_true_2.
    + intros k Hout Hf Hm Hsize Hraw. rewrite Hlook by done.
      rewrite (proj2 (String.eqb_neq _ _) Hsize).
      assert ((<["mtime" := Scalar (SString mtime)]>
                 (<["fileName" := Scalar (SString fileName)]> ∅)
               : gmap string field) !! k = None) as ->
        by (by rewrite !lookup_insert_ne, lookup_empty).
      destruct (tags !! k) as [v|] eqn:Hv; [|done].
      destruct Hout as [Hout|[Hout|[->|(v' & [= <-] & Hnull)]]].
      * rewrite (bool_decide_eq_false_2 (k ∉ excludeTags));
          [by rewrite andb_false_r|]. intros Hn. by apply Hn.
      * done.
      * by rewrite String.eqb_refl, andb_false_r.
      * by rewrite Hnull.
  - split; [done|]. split.
    + intros Hreturns. destruct Hspec as (v & Hv & He).
      destruct (Hreturns v Hv) as [r Hr]. congruence.
    + by intros ? [= <-].
Qed.

(** The selection [{Make, toString}] on [{Make: "Canon", Model: "R5"}]:
    [Make] is copied, [toString] is the text of the inherited function,
    [Model] is absent. *)
Lemma buildImageData_selected_fields_toString :
  ∃ data,
    Any.buildImageData Exotic.canon "photo.jpg" "2024-01-01T00:00:00.000Z"
      2048 (Some {["Make"; "toString"]}) ∅ false = Normal data ∧
    data !! "Make" = Some (Scalar (SString "Canon")) ∧
    data !! "toString"
      = Some (Scalar (SString "function toString() { [native code] }")) ∧
    data !! "Model" = None.
Proof.
  pose proof (buildImageData_selected_fields Exotic.canon "photo.jpg"
                "2024-01-01T00:00:00.000Z" 2048 {["Make"; "toString"]} ∅ false)
    as (Hcontent & _ & _).
  destruct (Any.buildImageData Exotic.canon "photo.jpg"
              "2024-01-01T00:00:00.000Z" 2048 (Some {["Make"; "toString"]})
              ∅ false) as [data|e] eqn:Hrun;
    [|vm_compute in Hrun; discriminate].
  destruct (Hcontent data eq_refl) as (Hcopied & Habsent & _).
  exists data. split; [done|]. split; [|split].
  - destruct (Hcopied "Make") as (r & Hr & ->);
      [apply elem_of_union; left; by apply elem_of_singleton
      |apply not_elem_of_empty | done..|].
    vm_compute in Hr. by injection Hr as <-.
  - destruct (Hcopied "toString") as (r & Hr & ->);
      [apply elem_of_union; right; by apply elem_of_singleton
      |apply not_elem_of_empty | done..|].
    vm_compute in Hr. by injection Hr as <-.
  - apply Habsent; [|done..]. left.
    intros [Hin|Hin]%elem_of_union; by apply elem_of_singleton in Hin.
Defined.

(** Extract-all on a record with a field [__proto__] of its own and
    [Directory] excluded: [ISO] is copied, [__proto__] and [Directory] are
    absent. *)
Lemma buildImageData_all_fields_own_proto :
  ∃ data,
    Any.buildImageData Exotic.own_proto "photo.jpg" "2024-01-01T00:00:00.000Z"
      2048 None {["Directory"]} true = Normal data ∧
    data !! "ISO" = Some (Scalar (SNumber 400)) ∧
    data !! "__proto__" = None ∧
    data !! "Directory" = None.
Proof.
  pose proof (buildImageData_all_fields Exotic.own_proto "photo.jpg"
                "2024-01-01T00:00:00.000Z" 2048 {["Directory"]} true)
    as (Hcontent & _ & _).
  destruct (Any.buildImageData Exotic.own_proto "photo.jpg"
              "2024-01-01T00:00:00.000Z" 2048 None {["Directory"]} true)
    as [data|e] eqn:Hrun; [|vm_compute in Hrun; discriminate].
  destruct (Hcontent data eq_refl) as (Hcopied & Habsent).
  exists data. split; [done|]. split; [|split].
  - destruct (Hcopied "ISO" (JNumber 400)) as (r & Hr & ->);
      [reflexivity | reflexivity
      | intros Hin; by apply elem_of_singleton in Hin | done..|].
    by injection Hr as <-.
  - apply Habsent; [|done..]. right. right. by left.
  - apply Habsent; [|done..]. left. by apply elem_of_singleton.
Defined.

(** ** The selection resolver *)

Lemma add_tags_elem (tagsSet : gset string) (tags : list string) (t : string) :
  t ∈ foldl (λ tagsSet tag, {[tag]} ∪ tagsSet) tagsSet tags ↔
  t ∈ tags ∨ t ∈ tagsSet.
Proof.
  revert tagsSet. induction tags as [|tag tags IH]; intros tagsSet; simpl.
  - rewrite elem_of_nil. tauto.
  - rewrite IH, elem_of_cons, elem_of_union, elem_of_singleton. tauto.
Qed.

(** Over the table's own entries: a tag is selected exactly when it is
    named explicitly or belongs to the list of a named preset that exists. *)
Lemma determineTagsToExtract_elem (presets tags : list string) (t : string) :
  t ∈ determineTagsToExtract presets tags ↔
  t ∈ tags ∨
  ∃ preset preset_tags,
    preset ∈ presets ∧ EXIF_PRESET_MAPPINGS !! preset = Some preset_tags ∧
    t ∈ preset_tags.
Proof.
  unfold determineTagsToExtract. cbv zeta. rewrite add_tags_elem.
  assert (∀ (tagsSet : gset string),
    t ∈ foldl (λ tagsSet preset,
                 match EXIF_PRESET_MAPPINGS !! preset with
                 | Some preset_tags =>
                     foldl (λ tagsSet tag, {[tag]} ∪ tagsSet) tagsSet preset_tags
                 | None => tagsSet
                 end) tagsSet presets ↔
    t ∈ tagsSet ∨
    ∃ preset preset_tags,
      preset ∈ presets ∧ EXIF_PRESET_MAPPINGS !! preset = Some preset_tags ∧
      t ∈ preset_tags) as Hpresets.
  { induction presets as [|p presets IH]; intros tagsSet; simpl.
    - split; [by left|]. intros [?|(p & ts & Hp & _)]; [done|].
      by apply elem_of_nil in Hp.
    - rewrite IH. destruct (EXIF_PRESET_MAPPINGS !! p) as [ts|] eqn:Hp.
      + rewrite add_tags_elem. split.
        * intros [[Ht|Ht]|(p' & ts' & Hin & Hts & Ht)].
          -- right. exists p, ts. split; [apply elem_of_cons; by left|done].
          -- by left.
          -- right. exists p', ts'. split; [apply elem_of_cons; by right|done].
        * intros [Ht|(p' & ts' & [->|Hin]%elem_of_cons & Hts & Ht)].
          -- left. by right.
          -- left. left. rewrite Hp in Hts. by injection Hts as ->.
          -- right. by exists p', ts'.
      + split.
        * intros [Ht|(p' & ts' & Hin & Hts & Ht)]; [by left|].
          right. exists p', ts'. split; [apply elem_of_cons; by right|done].
        * intros [Ht|(p' & ts' & [->|Hin]%elem_of_cons & Hts & Ht)].
          -- by left.
          -- by rewrite Hp in Hts.
          -- right. by exists p', ts'. }
  rewrite Hpresets. rewrite elem_of_empty. tauto.
Qed.

Lemma add_preset_thrown (e : string) (presets : list string) :
  foldl Any.add_preset (Thrown e) presets = Thrown e.
Proof. induction presets as [|p presets IH]; [done|]. simpl. apply IH. Qed.

(** The loop over the presets either meets a name that only
    [Object.prototype] knows, and throws, or does what the loop of
    [determineTagsToExtract] above does. *)
Lemma add_preset_fold (tagsSet : gset string) (presets : list string) :
  (∃ preset,
     preset ∈ presets ∧ EXIF_PRESET_MAPPINGS !! preset = None ∧
     is_Some (Any.Object_prototype !! preset) ∧
     foldl Any.add_preset (Normal tagsSet) presets
     = Thrown "TypeError: EXIF_PRESET_MAPPINGS[preset] is not iterable") ∨
  ((∀ preset, preset ∈ presets → EXIF_PRESET_MAPPINGS !! preset = None →
              Any.Object_prototype !! preset = None) ∧
   foldl Any.add_preset (Normal tagsSet) presets
   = Normal (foldl (λ tagsSet preset,
                      match EXIF_PRESET_MAPPINGS !! preset with
                      | Some preset_tags =>
                          foldl (λ tagsSet tag, {[tag]} ∪ tagsSet)
                                tagsSet preset_tags
                      | None => tagsSet
                      end) tagsSet presets)).
Proof.
  revert tagsSet. induction presets as [|p presets IH]; intros tagsSet.
  - right. split; [|done]. intros preset Hin. by apply elem_of_nil in Hin.
  - cbn [foldl]. unfold Any.add_preset at 2. simpl.
    destruct (EXIF_PRESET_MAPPINGS !! p) as [ts|] eqn:Hp;
      [|destruct (Any.Object_prototype !! p) as [inherited|] eqn:Hproto].
    + destruct (IH (foldl (λ tagsSet tag, {[tag]} ∪ tagsSet) tagsSet ts))
        as [(q & Hin & Hq & Hinh & Hthrown)|[Hgood Hfold]].
      * left. exists q. split; [apply elem_of_cons; by right|done].
      * right. split; [|done].
        intros q [->|Hin]%elem_of_cons Hq; [congruence|by apply Hgood].
    + left. exists p. split; [apply elem_of_cons; by left|].
      split; [done|]. split; [by rewrite Hproto|]. apply add_preset_thrown.
    + destruct (IH tagsSet) as [(q & Hin & Hq & Hinh & Hthrown)|[Hgood Hfold]].
      * left. exists q. split; [apply elem_of_cons; by right|done].
      * right. split; [|done].
        intros q [->|Hin]%elem_of_cons Hq; [done|by apply Hgood].
Qed.

(** X7. [determineTagsToExtract] throws exactly when some preset name has
    no entry of its own in the table and names a member of
    [Object.prototype]; when it returns, a tag is selected exactly when it
    is named explicitly or belongs to the list of a named preset of the
    table. *)
Theorem determineTagsToExtract_presets (presets tags : list string) :
  ((∃ e, Any.determineTagsToExtract presets tags = Thrown e) ↔
   ∃ preset,
     preset ∈ presets ∧ EXIF_PRESET_MAPPINGS !! preset = None ∧
     is_Some (Any.Object_prototype !! preset)) ∧
  (∀ tagsSet,
     Any.determineTagsToExtract presets tags = Normal tagsSet →
     ∀ t, t ∈ tagsSet ↔
          t ∈ tags ∨
          ∃ preset preset_tags,
            preset ∈ presets ∧
            EXIF_PRESET_MAPPINGS !! preset = Some preset_tags ∧
            t ∈ preset_tags).
Proof.
  unfold Any.determineTagsToExtract.
  destruct (add_preset_fold ∅ presets)
    as [(p & Hin & Hp & Hinh & Hthrown)|[Hgood Hfold]].
  - rewrite Hthrown. simpl. split; [|done]. split.
    + intros _. by exists p.
    + intros _. by eexists.
  - rewrite Hfold. simpl. split.
    + split; [by intros [e He]|].
      intros (p & Hin & Hp & [inherited Hinh]).
      by rewrite (Hgood p Hin Hp) in Hinh.
    + intros tagsSet [= <-] t. apply determineTagsToExtract_elem.
Qed.

(** The presets [["basic", "toString"]] throw; [["basic", "nope"]] select
    the three tags of [basic]. *)
Lemma determineTagsToExtract_presets_sample :
  (∃ e, Any.determineTagsToExtract ["basic"; "toString"] [] = Thrown e) ∧
  ∃ tagsSet,
    Any.determineTagsToExtract ["basic"; "nope"] ["ISO"] = Normal tagsSet ∧
    "ImageWidth" ∈ tagsSet ∧ "ISO" ∈ tagsSet.
Proof.
  split.
  - apply (proj1 (determineTagsToExtract_presets ["basic"; "toString"] [])).
    exists "toString". split; [apply elem_of_cons; right; apply elem_of_cons; by left|].
    split; [reflexivity|]. by eexists.
  - destruct (Any.determineTagsToExtract ["basic"; "nope"] ["ISO"])
      as [tagsSet|e] eqn:Hrun; [|vm_compute in Hrun; discriminate].
    exists tagsSet. split; [done|].
    pose proof (proj2 (determineTagsToExtract_presets ["basic"; "nope"] ["ISO"])
                  tagsSet Hrun) as Helem.
    split; apply Helem.
    + right. exists "basic", ["FileSize"; "ImageWidth"; "ImageHeight"].
      split; [apply elem_of_cons; by left|]. split; [reflexivity|].
      apply elem_of_cons; right; apply elem_of_cons; by left.
    + left. apply elem_of_cons; by left.
Defined.

(** ** What [processImage] does to the store *)

Lemma store_set_other (e : entry) (store : gmap string entry) (k : string) :
  k ≠ entry_id e → (store_set e store).1 !! k = store !! k.
Proof.
  intros Hk. unfold store_set.
  destruct (store !! entry_id e) as [old|];
    [destruct (String.eqb _ _)|]; simpl; try done;
    by rewrite lookup_insert_ne.
Qed.

Lemma store_set_stored (e : entry) (store : gmap string entry) :
  (store_set e store).2 = true → (store_set e store).1 = <[entry_id e := e]> store.
Proof.
  unfold store_set.
  destruct (store !! entry_id e) as [old|];
    [destruct (String.eqb _ _)|]; simpl; done.
Qed.

Section ProcessImage.
Context {paths : PathApi} {host : Host}.
Context (filePath rootPath : string) (store : gmap string entry).
Context (tagsToExtract : option (gset string)) (excludeTags : gset string).
Context (includeRawExif : bool).

(** Past the change check the first loader always reaches [store.set],
    with the projection of [tags_read]. *)
Lemma processImage_v1_run (stats : Stats) :
  stat filePath = Normal stats →
  unchanged (store !! LoaderV1.processImage_id rootPath filePath)
            (stats_mtime stats) = false →
  ∃ imageData logs,
    buildImageData (tags_read filePath) (basename filePath) (stats_mtime stats)
      (stats_size stats) tagsToExtract excludeTags includeRawExif
    = Normal imageData ∧
    let e := {| entry_id := LoaderV1.processImage_id rootPath filePath;
                entry_data := imageData;
                entry_digest := generateDigest imageData;
                entry_filePath := relative rootPath filePath |} in
    LoaderV1.processImage filePath store rootPath tagsToExtract excludeTags
      includeRawExif
    = ((store_set e store).1, Stored (store_set e store).2, logs).
Proof.
  intros Hstat Hu.
  unfold LoaderV1.processImage, LoaderV1.processImage_id, tags_read in *.
  cbv zeta. rewrite Hstat, Hu.
  destruct (exiftool_read filePath) as [tags|msg];
    (match goal with
     | |- context [buildImageData ?t ?f ?m ?s _ _ _] =>
         destruct (buildImageData_lookup t f m s excludeTags tagsToExtract
                     includeRawExif) as (imageData & -> & _)
     end);
    destruct (store_set _ store) as [store' success] eqn:Hset;
    eexists _, _; (split; [done|]); simpl; by rewrite Hset.
Qed.

Lemma processImage_v2_run (basePath : option string) (stats : Stats) :
  stat filePath = Normal stats →
  unchanged (store !! LoaderV2.processImage_id rootPath basePath filePath)
            (stats_mtime stats) = false →
  ∃ imageData logs,
    buildImageData (tags_read filePath)
      (basename (match basePath with
                 | Some b =>
                     if String.eqb b ""
                     then replace_backslashes (relative rootPath filePath)
                     else replace_backslashes (relative b filePath)
                 | None => replace_backslashes (relative rootPath filePath)
                 end))
      (stats_mtime stats) (stats_size stats) tagsToExtract excludeTags
      includeRawExif
    = Normal imageData ∧
    let srcRoot := pathResolve rootPath "src" in
    let srcPath :=
      if startsWith filePath (srcRoot ++ "/") || String.eqb filePath srcRoot
      then replace_backslashes (relative srcRoot filePath) else "" in
    let data := <["srcPath" := Scalar (SString srcPath)]> imageData in
    let e := {| entry_id := LoaderV2.processImage_id rootPath basePath filePath;
                entry_data := data;
                entry_digest := generateDigest data;
                entry_filePath := relative rootPath filePath |} in
    LoaderV2.processImage filePath store rootPath tagsToExtract excludeTags
      includeRawExif basePath
    = ((store_set e store).1, Stored (store_set e store).2, logs).
Proof.
  intros Hstat Hu.
  unfold LoaderV2.processImage, LoaderV2.processImage_id, tags_read in *.
  cbv zeta in *. rewrite Hstat, Hu.
  destruct (exiftool_read filePath) as [tags|msg];
    (match goal with
     | |- context [buildImageData ?t ?f ?m ?s _ _ _] =>
         destruct (buildImageData_lookup t f m s excludeTags tagsToExtract
                     includeRawExif) as (imageData & -> & _)
     end);
    destruct (store_set _ store) as [store' success] eqn:Hset;
    eexists _, _; (split; [done|]); simpl; by rewrite Hset.
Qed.

End ProcessImage.

Section ProcessImageFacts.
Context {paths : PathApi} {host : Host}.
Context (filePath rootPath : string) (store : gmap string entry).
Context (tagsToExtract : option (gset string)) (excludeTags : gset string).
Context (includeRawExif : bool).

Lemma processImage_v1_stat_fails (msg : string) :
  stat filePath = Thrown msg →
  LoaderV1.processImage filePath store rootPath tagsToExtract excludeTags
    includeRawExif = (store, Failed msg, [LogFailed filePath msg]).
Proof. intros Hstat. unfold LoaderV1.processImage. cbv zeta. by rewrite Hstat. Qed.

Lemma processImage_v2_stat_fails (basePath : option string) (msg : string) :
  stat filePath = Thrown msg →
  LoaderV2.processImage filePath store rootPath tagsToExtract excludeTags
    includeRawExif basePath = (store, Failed msg, [LogFailed filePath msg]).
Proof. intros Hstat. unfold LoaderV2.processImage. cbv zeta. by rewrite Hstat. Qed.

Lemma processImage_v1_other (k : string) :
  k ≠ LoaderV1.processImage_id rootPath filePath →
  (LoaderV1.processImage filePath store rootPath tagsToExtract excludeTags
     includeRawExif).1.1 !! k = store !! k.
Proof.
  intros Hk. destruct (stat filePath) as [stats|msg] eqn:Hstat.
  - destruct (unchanged (store !! LoaderV1.processImage_id rootPath filePath)
                (stats_mtime stats)) eqn:Hu.
    + destruct (processImage_v1_skips filePath rootPath store tagsToExtract
                  excludeTags includeRawExif stats Hstat) as [Hiff Hres].
      by rewrite (Hres (proj2 Hiff Hu)).
    + destruct (processImage_v1_run filePath rootPath store tagsToExtract
                  excludeTags includeRawExif stats Hstat Hu)
        as (imageData & logs & _ & ->).
      by apply store_set_other.
  - by rewrite (processImage_v1_stat_fails msg Hstat).
Qed.

Lemma processImage_v2_other (basePath : option string) (k : string) :
  k ≠ LoaderV2.processImage_id rootPath basePath filePath →
  (LoaderV2.processImage filePath store rootPath tagsToExtract excludeTags
     includeRawExif basePath).1.1 !! k = store !! k.
Proof.
  intros Hk. destruct (stat filePath) as [stats|msg] eqn:Hstat.
  - destruct (unchanged
                (store !! LoaderV2.processImage_id rootPath basePath filePath)
                (stats_mtime stats)) eqn:Hu.
    + destruct (processImage_v2_skips filePath rootPath store tagsToExtract
                  excludeTags includeRawExif basePath stats Hstat)
        as [Hiff Hres].
      by rewrite (Hres (proj2 Hiff Hu)).
    + destruct (processImage_v2_run filePath rootPath store tagsToExtract
                  excludeTags includeRawExif basePath stats Hstat Hu)
        as (imageData & logs & _ & ->).
      by apply store_set_other.
  - by rewrite (processImage_v2_stat_fails basePath msg Hstat).
Qed.

End ProcessImageFacts.

(** X8. [processImage] touches one record only: whatever happens to the file,
    every record stored under another identifier is left as it was, in
    both versions of the loader. *)
Theorem processImage_frame
    {paths : PathApi} {host : Host} (filePath rootPath : string)
    (basePath : option string) (store : gmap string entry)
    (tagsToExtract : option (gset string)) (excludeTags : gset string)
    (includeRawExif : bool) (k : string) :
  (k ≠ LoaderV1.processImage_id rootPath filePath →
   (LoaderV1.processImage filePath store rootPath tagsToExtract excludeTags
      includeRawExif).1.1 !! k = store !! k) ∧
  (k ≠ LoaderV2.processImage_id rootPath basePath filePath →
   (LoaderV2.processImage filePath store rootPath tagsToExtract excludeTags
      includeRawExif basePath).1.1 !! k = store !! k).
Proof.
  split; [apply processImage_v1_other | apply processImage_v2_other].
Qed.

Lemma buildImageData_mtime
    (tags : gmap string value) (fileName mtime : string) (fileSize : float)
    (tagsToExtract : option (gset string)) (excludeTags : gset string)
    (includeRawExif : bool) (data : gmap string field) :
  tags !! "mtime" = None →
  buildImageData tags fileName mtime fileSize tagsToExtract excludeTags
    includeRawExif = Normal data →
  data !! "mtime" = Some (Scalar (SString mtime)).
Proof.
  intros Hm Hdata.
  destruct (buildImageData_lookup tags fileName mtime fileSize excludeTags
              tagsToExtract includeRawExif) as (data' & Hdata' & Hlook).
  rewrite Hdata in Hdata'. injection Hdata' as <-. cbv zeta in Hlook.
  rewrite Hlook by done. rewrite Hm.
  destruct tagsToExtract as [X|]; simpl.
  - by destruct (bool_decide ("mtime" ∈ X) && bool_decide ("mtime" ∉ excludeTags)).
  - by destruct (bool_decide ("mtime" ∉ excludeTags)).
Qed.

(** X10. Processing is idempotent: once a call has stored a record, a second
    call on the same file, with the file and the reader unchanged, stops at
    the change check.  The reader's record must hold no tag named [mtime],
    which would replace the field the check reads. *)
Theorem reprocessing_is_skipped
    {paths : PathApi} {host : Host} (filePath rootPath : string)
    (basePath : option string) (store : gmap string entry)
    (tagsToExtract : option (gset string)) (excludeTags : gset string)
    (includeRawExif : bool) (stats : Stats) :
  stat filePath = Normal stats →
  tags_read filePath !! "mtime" = None →
  (∀ store' logs,
     LoaderV1.processImage filePath store rootPath tagsToExtract excludeTags
       includeRawExif = (store', Stored true, logs) →
     LoaderV1.processImage filePath store' rootPath tagsToExtract excludeTags
       includeRawExif = (store', Skipped, [])) ∧
  (∀ store' logs,
     LoaderV2.processImage filePath store rootPath tagsToExtract excludeTags
       includeRawExif basePath = (store', Stored true, logs) →
     LoaderV2.processImage filePath store' rootPath tagsToExtract excludeTags
       includeRawExif basePath = (store', Skipped, [])).
Proof.
  intros Hstat Hm. split; intros store' logs Hrun.
  - destruct (unchanged (store !! LoaderV1.processImage_id rootPath filePath)
                (stats_mtime stats)) eqn:Hu.
    { destruct (processImage_v1_skips filePath rootPath store tagsToExtract
                  excludeTags includeRawExif stats Hstat) as [Hiff Hres].
      rewrite (Hres (proj2 Hiff Hu)) in Hrun. discriminate Hrun. }
    destruct (processImage_v1_run filePath rootPath store tagsToExtract
                excludeTags includeRawExif stats Hstat Hu)
      as (imageData & logs' & Hdata & Heq).
    cbv zeta in Heq. rewrite Heq in Hrun. injection Hrun as Hstore Hsuccess _.
    rewrite (store_set_stored _ _ Hsuccess) in Hstore. simpl in Hstore.
    destruct (processImage_v1_skips filePath rootPath store' tagsToExtract
                excludeTags includeRawExif stats Hstat) as [Hiff Hres].
    apply Hres, Hiff, unchanged_iff. eexists. split.
    + rewrite <- Hstore. apply lookup_insert_eq.
    + simpl. by apply (buildImageData_mtime _ _ _ _ _ _ _ _ Hm Hdata).
  - destruct (unchanged
                (store !! LoaderV2.processImage_id rootPath basePath filePath)
                (stats_mtime stats)) eqn:Hu.
    { destruct (processImage_v2_skips filePath rootPath store tagsToExtract
                  excludeTags includeRawExif basePath stats Hstat)
        as [Hiff Hres].
      rewrite (Hres (proj2 Hiff Hu)) in Hrun. discriminate Hrun. }
    destruct (processImage_v2_run filePath rootPath store tagsToExtract
                excludeTags includeRawExif basePath stats Hstat Hu)
      as (imageData & logs' & Hdata & Heq).
    cbv zeta in Heq. rewrite Heq in Hrun. injection Hrun as Hstore Hsuccess _.
    rewrite (store_set_stored _ _ Hsuccess) in Hstore. simpl in Hstore.
    destruct (processImage_v2_skips filePath rootPath store' tagsToExtract
                excludeTags includeRawExif basePath stats Hstat)
      as [Hiff Hres].
    apply Hres, Hiff, unchanged_iff. eexists. split.
    + rewrite <- Hstore. apply lookup_insert_eq.
    + simpl. rewrite lookup_insert_ne by done.
      by apply (buildImageData_mtime _ _ _ _ _ _ _ _ Hm Hdata).
Qed.

(** On the sample host: the first call stores the photo, the second is
    skipped. *)
Lemma reprocessing_is_skipped_photo :
  ∃ store logs,
    LoaderV1.processImage (paths := Posix.api)
      (host := Samples.host "2024-01-01T00:00:00.000Z") Samples.photo ∅
      "/proj" None ∅ false = (store, Stored true, logs) ∧
    LoaderV1.processImage (paths := Posix.api)
      (host := Samples.host "2024-01-01T00:00:00.000Z") Samples.photo store
      "/proj" None ∅ false = (store, Skipped, []).
Proof.
  eexists _, _. split; [vm_compute; reflexivity|].
  eapply (proj1 (reprocessing_is_skipped (paths := Posix.api)
                   (host := Samples.host "2024-01-01T00:00:00.000Z")
                   Samples.photo "/proj" None ∅ None ∅ false
                   {| stats_mtime := "2024-01-01T00:00:00.000Z";
                      stats_size := 2048 |} eq_refl eq_refl)).
  vm_compute. reflexivity.
Defined.

Lemma processImage_frame_photo :
  (LoaderV1.processImage (paths := Posix.api)
     (host := Samples.host "2024-01-01T00:00:00.000Z") Samples.photo
     (Samples.stored "other.jpg" "2023-01-01T00:00:00.000Z")
     "/proj" None ∅ false).1.1 !! "other.jpg"
  = Samples.stored "other.jpg" "2023-01-01T00:00:00.000Z" !! "other.jpg".
Proof.
  apply (proj1 (processImage_frame (paths := Posix.api)
                  (host := Samples.host "2024-01-01T00:00:00.000Z")
                  Samples.photo "/proj" None
                  (Samples.stored "other.jpg" "2023-01-01T00:00:00.000Z")
                  None ∅ false "other.jpg")).
  vm_compute. discriminate.
Defined.

(** X11. A file whose metadata cannot be read is stored all the same: past the
    change check the record is the projection of the empty tag record,
    and the reader's failure is a warning in the log, not the outcome. *)
Theorem read_failure_degrades
    {paths : PathApi} {host : Host} (filePath rootPath : string)
    (store : gmap string entry)
    (tagsToExtract : option (gset string)) (excludeTags : gset string)
    (includeRawExif : bool) (stats : Stats) (msg : string) :
  stat filePath = Normal stats →
  exiftool_read filePath = Thrown msg →
  unchanged (store !! LoaderV1.processImage_id rootPath filePath)
            (stats_mtime stats) = false →
  ∃ imageData,
    buildImageData ∅ (basename filePath) (stats_mtime stats)
      (stats_size stats) tagsToExtract excludeTags includeRawExif
    = Normal imageData ∧
    let id := LoaderV1.processImage_id rootPath filePath in
    let set := store_set {| entry_id := id; entry_data := imageData;
                            entry_digest := generateDigest imageData;
                            entry_filePath := relative rootPath filePath |}
                         store in
    LoaderV1.processImage filePath store rootPath tagsToExtract excludeTags
      includeRawExif
    = (set.1, Stored set.2,
       [LogReadFailed id msg;
        if set.2 then LogProcessed id else LogNoChanges id]).
Proof.
  intros Hstat Hread Hu.
  destruct (buildImageData_lookup ∅ (basename filePath) (stats_mtime stats)
              (stats_size stats) excludeTags tagsToExtract includeRawExif)
    as (imageData & Hdata & _).
  exists imageData. split; [exact Hdata|].
  unfold LoaderV1.processImage, LoaderV1.processImage_id in *. cbv zeta.
  rewrite Hstat, Hu, Hread, Hdata.
  by destruct (store_set _ store) as [store' success].
Qed.

Lemma read_failure_degrades_photo :
  ∃ imageData,
    buildImageData ∅ "photo.jpg" "2024-01-01T00:00:00.000Z" 2048
      (Some {["Make"]}) ∅ false = Normal imageData ∧
    LoaderV1.processImage (paths := Posix.api)
      (host := Scenarios.unreadable "2024-01-01T00:00:00.000Z")
      Samples.photo ∅ "/proj" (Some {["Make"]}) ∅ false
    = ({[ "content/images/photo.jpg" :=
            {| entry_id := "content/images/photo.jpg";
               entry_data := imageData; entry_digest := "digest";
               entry_filePath := "src/content/images/photo.jpg" |} ]},
       Stored true,
       [LogReadFailed "content/images/photo.jpg" "unsupported file";
        LogProcessed "content/images/photo.jpg"]).
Proof.
  assert (unchanged
            ((∅ : gmap string entry)
               !! LoaderV1.processImage_id (paths := Posix.api) "/proj"
                    Samples.photo)
            "2024-01-01T00:00:00.000Z" = false) as Hnew
    by (vm_compute; reflexivity).
  destruct (read_failure_degrades (paths := Posix.api)
              (host := Scenarios.unreadable "2024-01-01T00:00:00.000Z")
              Samples.photo "/proj" ∅ (Some {["Make"]}) ∅ false
              {| stats_mtime := "2024-01-01T00:00:00.000Z";
                 stats_size := 2048 |}
              "unsupported file" eq_refl eq_refl Hnew)
    as (imageData & Hdata & Hrun).
  exists imageData. split; [exact Hdata|]. rewrite Hrun. reflexivity.
Defined.

(** ** Identifiers of the revised loader *)

Lemma drop_chars_all (s : string) : drop_chars (String.length s) s = "".
Proof. induction s as [|c s IH]; simpl; [done | exact IH]. Qed.

Lemma prefix_refl (s : string) : String.prefix s s = true.
Proof.
  induction s as [|c s IH]; simpl; [done|].
  destruct (ascii_dec c c); [exact IH | done].
Qed.

Lemma replace_first_cons (pat rep : string) (c : ascii) (s : string) :
  String.prefix pat (String c s) = false →
  replace_first pat rep (String c s) = String c (replace_first pat rep s).
Proof.
  intros Hp.
  change (replace_first pat rep (String c s))
    with (if String.prefix pat (String c s)
          then rep ++ drop_chars (String.length pat) (String c s)
          else String c (replace_first pat rep s)).
  by rewrite Hp.
Qed.

(** [String.prototype.replace] removes the extension at the end of a
    path whose stem holds no dot. *)
Lemma replace_first_extension (stem e : string) :
  occurs "."%char stem = false →
  replace_first (String "."%char e) "" (stem ++ String "."%char e) = stem.
Proof.
  intros Hdot. induction stem as [|c stem IH].
  - change (replace_first (String "."%char e) "" (String "."%char e) = "").
    unfold replace_first. rewrite prefix_refl. by rewrite drop_chars_all.
  - simpl in Hdot. apply orb_false_iff in Hdot as [Hc Hstem].
    change (replace_first (String "."%char e) ""
              (String c (stem ++ String "."%char e)) = String c stem).
    rewrite replace_first_cons; [by rewrite (IH Hstem)|].
    change (String.prefix (String "."%char e)
              (String c (stem ++ String "."%char e)))
      with (if ascii_dec "."%char c
            then String.prefix e (stem ++ String "."%char e) else false).
    destruct (ascii_dec "."%char c) as [<-|Hne]; [|done].
    by rewrite Ascii.eqb_refl in Hc.
Qed.

Lemma replace_backslashes_id (s : string) :
  occurs "\"%char s = false → replace_backslashes s = s.
Proof.
  induction s as [|c s IH]; simpl; [done|].
  intros [Hc Hs]%orb_false_iff. by rewrite Hc, (IH Hs).
Qed.

(** X12. In the revised loader the identifier of a file is its path relative to
    the image directory without the extension, for [processImage] and for
    [unlink] alike, when that path holds no backslash and its stem no dot.
    Files that differ in their extension only therefore share one
    identifier. *)
Theorem v2_id_is_stem
    {paths : PathApi} (rootPath basePath filePath stem e : string) :
  basePath ≠ "" →
  relative basePath filePath = stem ++ String "."%char e →
  extname (stem ++ String "."%char e) = String "."%char e →
  occurs "."%char stem = false →
  occurs "\"%char (stem ++ String "."%char e) = false →
  LoaderV2.processImage_id rootPath (Some basePath) filePath = stem ∧
  LoaderV2.unlink_id basePath filePath = stem.
Proof.
  intros Hb Hrel Hext Hdot Hslash.
  unfold LoaderV2.processImage_id, LoaderV2.unlink_id. cbv zeta.
  apply String.eqb_neq in Hb. rewrite Hb, Hrel.
  rewrite (replace_backslashes_id _ Hslash), Hext.
  by rewrite replace_first_extension.
Qed.

(** [a.jpg] and [a.png] of one directory get the identifier [a]. *)
Lemma v2_id_collision :
  LoaderV2.processImage_id (paths := Posix.api) "/proj"
    (Some Scenarios.images) "/proj/src/content/images/a.jpg" = "a" ∧
  LoaderV2.processImage_id (paths := Posix.api) "/proj"
    (Some Scenarios.images) "/proj/src/content/images/a.png" = "a".
Proof.
  split.
  - apply (v2_id_is_stem (paths := Posix.api) "/proj" Scenarios.images
             "/proj/src/content/images/a.jpg" "a" "jpg"); done.
  - apply (v2_id_is_stem (paths := Posix.api) "/proj" Scenarios.images
             "/proj/src/content/images/a.png" "a" "png"); done.
Defined.

(** X13. In the revised loader a file that is processed and then removed leaves
    the store as it was before, provided the file had no record, the path
    matches the loader's patterns and its relative form holds no
    backslash. *)
Theorem v2_process_then_unlink
    {paths : PathApi} {host : Host} (loader : Loader)
    (rootPath filePath : string) (store : gmap string entry) :
  let basePath := LoaderV1.basePath_of loader rootPath in
  basePath ≠ "" →
  LoaderV1.matches (pattern (loader_imagesDir loader)) basePath filePath = true →
  replace_backslashes (relative basePath filePath) = relative basePath filePath →
  store !! LoaderV2.processImage_id rootPath (Some basePath) filePath = None →
  (LoaderV2.onUnlink loader rootPath filePath
     (LoadV2.onAddOrChange loader rootPath filePath store).1).1 = store.
Proof.
  intros basePath Hb Hmatch Hrel Hfresh.
  unfold LoaderV2.onUnlink, LoadV2.onAddOrChange. cbv zeta.
  fold basePath. rewrite Hmatch. simpl.
  pose proof (unlink_id_v2_agrees rootPath basePath filePath Hb Hrel) as Hid.
  unfold LoaderV2.unlink_id in Hid. cbv zeta in Hid.
  destruct (LoaderV2.processImage filePath store rootPath
              (loader_tagsToExtract loader) (loader_excludeTagsSet loader)
              (loader_includeRawExif loader) (Some basePath))
    as [[store' o] logs] eqn:Hrun.
  simpl. rewrite Hid. apply map_eq. intros k.
  destruct (decide (k = LoaderV2.processImage_id rootPath (Some basePath)
                           filePath)) as [->|Hk].
  - by rewrite lookup_delete_eq, Hfresh.
  - rewrite lookup_delete_ne by done.
    pose proof (processImage_v2_other filePath rootPath store
                  (loader_tagsToExtract loader) (loader_excludeTagsSet loader)
                  (loader_includeRawExif loader) (Some basePath) k Hk) as Hother.
    by rewrite Hrun in Hother.
Qed.

Lemma v2_process_then_unlink_photo :
  (LoaderV2.onUnlink (paths := Posix.api)
     (host := Samples.host "2024-01-01T00:00:00.000Z")
     (createExifLoader Samples.no_options) "/proj" Samples.photo
     (LoadV2.onAddOrChange (paths := Posix.api)
        (host := Samples.host "2024-01-01T00:00:00.000Z")
        (createExifLoader Samples.no_options) "/proj" Samples.photo ∅).1).1
  = ∅.
Proof.
  apply (v2_process_then_unlink (paths := Posix.api)
           (host := Samples.host "2024-01-01T00:00:00.000Z")
           (createExifLoader Samples.no_options) "/proj" Samples.photo ∅);
    [done | vm_compute; reflexivity | vm_compute; reflexivity
    | vm_compute; reflexivity].
Defined.

(** ** The revised loader and the importer together *)

(** X14. A record the revised loader stores carries [srcPath]: the path below
    [src] for a file inside it, the empty string otherwise; and the
    importer keyed on [srcPath] counts the record as lacking a source path
    exactly when that string is empty. *)
Theorem stored_srcPath_decides_importable
    {paths : PathApi} {host : Host} (filePath rootPath : string)
    (basePath : option string) (store store' : gmap string entry)
    (tagsToExtract : option (gset string)) (excludeTags : gset string)
    (includeRawExif : bool) (logs : list log) (collection : string) :
  LoaderV2.processImage filePath store rootPath tagsToExtract excludeTags
    includeRawExif basePath = (store', Stored true, logs) →
  let srcRoot := pathResolve rootPath "src" in
  let srcPath :=
    if startsWith filePath (srcRoot ++ "/") || String.eqb filePath srcRoot
    then replace_backslashes (relative srcRoot filePath) else "" in
  ∃ e,
    store' !! LoaderV2.processImage_id rootPath basePath filePath = Some e ∧
    srcPath_of (entry_data e) = Some srcPath ∧
    (ImporterV1.lacks srcPath_of (collection_entry collection e) = true ↔
     srcPath = "").
Proof.
  intros Hrun srcRoot srcPath.
  destruct (stat filePath) as [stats|msg] eqn:Hstat;
    [|by rewrite (processImage_v2_stat_fails _ _ _ _ _ _ _ msg Hstat) in Hrun].
  destruct (unchanged
              (store !! LoaderV2.processImage_id rootPath basePath filePath)
              (stats_mtime stats)) eqn:Hu.
  { destruct (processImage_v2_skips filePath rootPath store tagsToExtract
                excludeTags includeRawExif basePath stats Hstat)
      as [Hiff Hres].
    rewrite (Hres (proj2 Hiff Hu)) in Hrun. discriminate Hrun. }
  destruct (processImage_v2_run filePath rootPath store tagsToExtract
              excludeTags includeRawExif basePath stats Hstat Hu)
    as (imageData & logs' & _ & Heq).
  cbv zeta in Heq. rewrite Heq in Hrun. injection Hrun as Hstore Hsuccess _.
  rewrite (store_set_stored _ _ Hsuccess) in Hstore. simpl in Hstore.
  eexists. split; [rewrite <- Hstore; apply lookup_insert_eq|].
  assert (srcPath_of (<["srcPath" := Scalar (SString srcPath)]> imageData)
          = Some srcPath) as Hsrc
    by (unfold srcPath_of; by rewrite lookup_insert_eq).
  split; [exact Hsrc|].
  unfold ImporterV1.lacks, collection_entry. simpl.
  fold srcRoot. fold srcPath. rewrite Hsrc. simpl. apply String.eqb_eq.
Qed.

Lemma stored_srcPath_photo :
  ∃ e,
    (LoaderV2.processImage (paths := Posix.api)
       (host := Samples.host "2024-01-01T00:00:00.000Z") Samples.photo ∅
       "/proj" None ∅ false (Some Scenarios.images)).1.1 !! "photo" = Some e ∧
    srcPath_of (entry_data e) = Some "content/images/photo.jpg" ∧
    (ImporterV1.lacks srcPath_of (collection_entry "images" e) = true ↔
     "content/images/photo.jpg" = "").
Proof.
  destruct (LoaderV2.processImage (paths := Posix.api)
              (host := Samples.host "2024-01-01T00:00:00.000Z") Samples.photo
              ∅ "/proj" None ∅ false (Some Scenarios.images))
    as [[store' o] logs] eqn:Hrun.
  assert (o = Stored true) as -> by (vm_compute in Hrun; congruence).
  apply (stored_srcPath_decides_importable (paths := Posix.api)
           (host := Samples.host "2024-01-01T00:00:00.000Z") Samples.photo
           "/proj" (Some Scenarios.images) ∅ store' None ∅ false logs
           "images" Hrun).
Defined.

(** ** The first pass of [load] and the watcher callbacks *)

Section LoadFacts.
Context {paths : PathApi} {host : Host}.
Context (loader : Loader) (rootPath : string).

Lemma load_v1_fold (k : string) (files : list string)
    (store : gmap string entry) (logs : list load_log) :
  (∀ rel, rel ∈ files →
     k ≠ LoaderV1.processImage_id rootPath
           (pathResolve (LoaderV1.basePath_of loader rootPath) rel)) →
  (foldl
     (λ '(store, logs) rel,
        let abs := pathResolve (LoaderV1.basePath_of loader rootPath) rel in
        let '(store', _, l) :=
          LoaderV1.processImage abs store rootPath
            (loader_tagsToExtract loader) (loader_excludeTagsSet loader)
            (loader_includeRawExif loader) in
        (store', (logs ++ (LoadFile <$> l))%list))
     (store, logs) files).1 !! k = store !! k.
Proof.
  revert store logs. induction files as [|rel files IH]; intros store logs Hk;
    [done|].
  simpl.
  pose proof (processImage_v1_other
                (pathResolve (LoaderV1.basePath_of loader rootPath) rel)
                rootPath store (loader_tagsToExtract loader)
                (loader_excludeTagsSet loader) (loader_includeRawExif loader) k
                (Hk rel ltac:(apply elem_of_cons; by left))) as Hstep.
  destruct (LoaderV1.processImage _ store _ _ _ _) as [[store' o] l].
  rewrite IH; [exact Hstep|].
  intros rel' Hrel'. apply Hk. apply elem_of_cons. by right.
Qed.

Lemma load_v2_fold (k : string) (files : list string)
    (store : gmap string entry) (logs : list load_log) :
  (∀ rel, rel ∈ files →
     k ≠ LoaderV2.processImage_id rootPath
           (Some (LoaderV1.basePath_of loader rootPath))
           (pathResolve (LoaderV1.basePath_of loader rootPath) rel)) →
  (foldl
     (λ '(store, logs) rel,
        let abs := pathResolve (LoaderV1.basePath_of loader rootPath) rel in
        let '(store', _, l) :=
          LoaderV2.processImage abs store rootPath
            (loader_tagsToExtract loader) (loader_excludeTagsSet loader)
            (loader_includeRawExif loader)
            (Some (LoaderV1.basePath_of loader rootPath)) in
        (store', (logs ++ (LoadFile <$> l))%list))
     (store, logs) files).1 !! k = store !! k.
Proof.
  revert store logs. induction files as [|rel files IH]; intros store logs Hk;
    [done|].
  simpl.
  pose proof (processImage_v2_other
                (pathResolve (LoaderV1.basePath_of loader rootPath) rel)
                rootPath store (loader_tagsToExtract loader)
                (loader_excludeTagsSet loader) (loader_includeRawExif loader)
                (Some (LoaderV1.basePath_of loader rootPath)) k
                (Hk rel ltac:(apply elem_of_cons; by left))) as Hstep.
  destruct (LoaderV2.processImage _ store _ _ _ _ _) as [[store' o] l].
  rewrite IH; [exact Hstep|].
  intros rel' Hrel'. apply Hk. apply elem_of_cons. by right.
Qed.

End LoadFacts.

(** X15. The first pass of [load] changes only records of the files the glob
    found: a record under an identifier none of them has is left as it
    was, a glob that fails or finds nothing leaves the whole store as it
    was, and the call itself never fails. *)
Theorem load_frame
    {paths : PathApi} {host : Host} (loader : Loader) (rootPath : string)
    (store : gmap string entry) :
  let basePath := LoaderV1.basePath_of loader rootPath in
  (∀ files k,
     (∀ rel, rel ∈ files →
        k ≠ LoaderV1.processImage_id rootPath (pathResolve basePath rel)) →
     (LoadV1.load loader rootPath (Normal files) store).1 !! k = store !! k) ∧
  (∀ files k,
     (∀ rel, rel ∈ files →
        k ≠ LoaderV2.processImage_id rootPath (Some basePath)
              (pathResolve basePath rel)) →
     (LoadV2.load loader rootPath (Normal files) store).1 !! k = store !! k) ∧
  (∀ msg,
     (LoadV1.load loader rootPath (Thrown msg) store).1 = store ∧
     (LoadV2.load loader rootPath (Thrown msg) store).1 = store) ∧
  (LoadV1.load loader rootPath (Normal []) store
   = (store, [LoadStarted (pattern (loader_imagesDir loader)) basePath;
              LoadNoImages basePath (pattern (loader_imagesDir loader))]) ∧
   LoadV2.load loader rootPath (Normal []) store
   = (store, [LoadStarted (pattern (loader_imagesDir loader)) basePath;
              LoadNoImages basePath (pattern (loader_imagesDir loader))])).
Proof.
  intros basePath. split; [|split; [|split]].
  - intros files k Hk. unfold LoadV1.load. cbv zeta.
    pose proof (load_v1_fold loader rootPath k files store
                  (if Nat.eqb (length files) 0
                   then [LoadNoImages (LoaderV1.basePath_of loader rootPath)
                           (pattern (loader_imagesDir loader))]
                   else []) Hk) as Hfold.
    destruct (foldl _ _ files) as [store' logs]. exact Hfold.
  - intros files k Hk. unfold LoadV2.load. cbv zeta.
    pose proof (load_v2_fold loader rootPath k files store
                  (if Nat.eqb (length files) 0
                   then [LoadNoImages (LoaderV1.basePath_of loader rootPath)
                           (pattern (loader_imagesDir loader))]
                   else []) Hk) as Hfold.
    destruct (foldl _ _ files) as [store' logs]. exact Hfold.
  - intros msg. by split.
  - by split.
Qed.

(** A store that already holds another record: [load] on the photo leaves
    that record alone. *)
Lemma load_frame_photo :
  (LoadV1.load (paths := Posix.api)
     (host := Samples.host "2024-01-01T00:00:00.000Z")
     (createExifLoader Samples.no_options) "/proj" (Normal ["photo.jpg"])
     (Samples.stored "other.jpg" "2023-01-01T00:00:00.000Z")).1 !! "other.jpg"
  = Samples.stored "other.jpg" "2023-01-01T00:00:00.000Z" !! "other.jpg".
Proof.
  apply (proj1 (load_frame (paths := Posix.api)
                  (host := Samples.host "2024-01-01T00:00:00.000Z")
                  (createExifLoader Samples.no_options) "/proj"
                  (Samples.stored "other.jpg" "2023-01-01T00:00:00.000Z"))
               ["photo.jpg"] "other.jpg").
  intros rel [->|Hrel%elem_of_nil]%elem_of_cons; [|done].
  vm_compute. discriminate.
Defined.

(** X16. The watcher callbacks change at most the record of the identifier
    they compute, and an event for a path outside the image directory
    changes nothing and logs nothing, whatever the patterns match. *)
Theorem watcher_frame
    {paths : PathApi} {host : Host} (loader : Loader)
    (rootPath filePath : string) (store : gmap string entry) :
  let basePath := LoaderV1.basePath_of loader rootPath in
  (∀ k, k ≠ LoaderV1.processImage_id rootPath filePath →
        (LoaderV1.onAddOrChange loader rootPath filePath store).1 !! k
        = store !! k) ∧
  (∀ k, k ≠ LoaderV1.unlink_id filePath →
        (LoaderV1.onUnlink loader rootPath filePath store).1 !! k
        = store !! k) ∧
  (∀ k, k ≠ LoaderV2.processImage_id rootPath (Some basePath) filePath →
        (LoadV2.onAddOrChange loader rootPath filePath store).1 !! k
        = store !! k) ∧
  (∀ k, k ≠ LoaderV2.unlink_id basePath filePath →
        (LoaderV2.onUnlink loader rootPath filePath store).1 !! k
        = store !! k) ∧
  (String.eqb (pathResolve filePath "") (pathResolve basePath "")
   || startsWith (pathResolve filePath "") (pathResolve basePath "" ++ "/")
   = false →
   LoaderV1.onAddOrChange loader rootPath filePath store = (store, []) ∧
   LoaderV1.onUnlink loader rootPath filePath store = (store, []) ∧
   LoadV2.onAddOrChange loader rootPath filePath store = (store, []) ∧
   LoaderV2.onUnlink loader rootPath filePath store = (store, [])).
Proof.
  intros basePath. split; [|split; [|split; [|split]]].
  - intros k Hk. unfold LoaderV1.onAddOrChange.
    destruct (negb _); [done|].
    pose proof (processImage_v1_other filePath rootPath store
                  (loader_tagsToExtract loader) (loader_excludeTagsSet loader)
                  (loader_includeRawExif loader) k Hk) as Hother.
    by destruct (LoaderV1.processImage _ _ _ _ _ _) as [[store' o] logs].
  - intros k Hk. unfold LoaderV1.onUnlink, LoaderV1.unlink_id in *.
    destruct (negb _); [done|]. simpl. by rewrite lookup_delete_ne.
  - intros k Hk. unfold LoadV2.onAddOrChange. cbv zeta.
    destruct (negb _); [done|].
    pose proof (processImage_v2_other filePath rootPath store
                  (loader_tagsToExtract loader) (loader_excludeTagsSet loader)
                  (loader_includeRawExif loader) (Some basePath) k Hk)
      as Hother.
    by destruct (LoaderV2.processImage _ _ _ _ _ _ _) as [[store' o] logs].
  - intros k Hk. unfold LoaderV2.onUnlink, LoaderV2.unlink_id in *.
    cbv zeta in *. destruct (negb _); [done|]. simpl.
    by rewrite lookup_delete_ne.
  - intros Hout.
    assert (LoaderV1.matches (pattern (loader_imagesDir loader)) basePath
              filePath = false) as Hmatch
      by (unfold LoaderV1.matches; cbv zeta; by rewrite Hout).
    unfold LoaderV1.onAddOrChange, LoaderV1.onUnlink, LoadV2.onAddOrChange,
      LoaderV2.onUnlink. cbv zeta. fold basePath. by rewrite Hmatch.
Qed.

Lemma watcher_frame_outside :
  LoaderV1.onAddOrChange (paths := Posix.api)
    (host := Samples.host "2024-01-01T00:00:00.000Z")
    (createExifLoader Samples.no_options) "/proj" "/proj/public/logo.png" ∅
  = (∅, []) ∧
  LoaderV1.onUnlink (paths := Posix.api)
    (host := Samples.host "2024-01-01T00:00:00.000Z")
    (createExifLoader Samples.no_options) "/proj" "/proj/public/logo.png" ∅
  = (∅, []) ∧
  LoadV2.onAddOrChange (paths := Posix.api)
    (host := Samples.host "2024-01-01T00:00:00.000Z")
    (createExifLoader Samples.no_options) "/proj" "/proj/public/logo.png" ∅
  = (∅, []) ∧
  LoaderV2.onUnlink (paths := Posix.api)
    (host := Samples.host "2024-01-01T00:00:00.000Z")
    (createExifLoader Samples.no_options) "/proj" "/proj/public/logo.png" ∅
  = (∅, []).
Proof.
  apply (watcher_frame (paths := Posix.api)
           (host := Samples.host "2024-01-01T00:00:00.000Z")
           (createExifLoader Samples.no_options) "/proj"
           "/proj/public/logo.png" ∅).
  vm_compute. reflexivity.
Defined.

(** ** Files that are gone *)

Section LoadFailures.
Context {paths : PathApi} {host : Host}.
Context (loader : Loader) (rootPath : string).

Lemma load_v1_found (files : list string)
    (store : gmap string entry) (logs logs' : list load_log) :
  (foldl
     (λ '(store, logs) rel,
        let abs := pathResolve (LoaderV1.basePath_of loader rootPath) rel in
        let '(store', _, l) :=
          LoaderV1.processImage abs store rootPath
            (loader_tagsToExtract loader) (loader_excludeTagsSet loader)
            (loader_includeRawExif loader) in
        (store', (logs ++ (LoadFile <$> l))%list))
     (store, logs) files).1
  = (foldl
       (λ '(store, logs) rel,
          let abs := pathResolve (LoaderV1.basePath_of loader rootPath) rel in
          let '(store', _, l) :=
            LoaderV1.processImage abs store rootPath
              (loader_tagsToExtract loader) (loader_excludeTagsSet loader)
              (loader_includeRawExif loader) in
          (store', (logs ++ (LoadFile <$> l))%list))
       (store, logs')
       (List.filter
          (λ rel, found (pathResolve (LoaderV1.basePath_of loader rootPath) rel))
          files)).1.
Proof.
  revert store logs logs'.
  induction files as [|rel files IH]; intros store logs logs'; [done|].
  cbn [foldl List.filter].
  destruct (found (pathResolve (LoaderV1.basePath_of loader rootPath) rel))
    eqn:Hfound.
  - cbn [foldl]. cbv zeta.
    destruct (LoaderV1.processImage _ store _ _ _ _) as [[store' o] l].
    apply IH.
  - unfold found in Hfound.
    destruct (stat (pathResolve (LoaderV1.basePath_of loader rootPath) rel))
      as [stats|msg] eqn:Hstat; [done|]. cbv zeta.
    rewrite (processImage_v1_stat_fails _ _ _ _ _ _ msg Hstat). apply IH.
Qed.

Lemma load_v2_found (files : list string)
    (store : gmap string entry) (logs logs' : list load_log) :
  (foldl
     (λ '(store, logs) rel,
        let abs := pathResolve (LoaderV1.basePath_of loader rootPath) rel in
        let '(store', _, l) :=
          LoaderV2.processImage abs store rootPath
            (loader_tagsToExtract loader) (loader_excludeTagsSet loader)
            (loader_includeRawExif loader)
            (Some (LoaderV1.basePath_of loader rootPath)) in
        (store', (logs ++ (LoadFile <$> l))%list))
     (store, logs) files).1
  = (foldl
       (λ '(store, logs) rel,
          let abs := pathResolve (LoaderV1.basePath_of loader rootPath) rel in
          let '(store', _, l) :=
            LoaderV2.processImage abs store rootPath
              (loader_tagsToExtract loader) (loader_excludeTagsSet loader)
              (loader_includeRawExif loader)
              (Some (LoaderV1.basePath_of loader rootPath)) in
          (store', (logs ++ (LoadFile <$> l))%list))
       (store, logs')
       (List.filter
          (λ rel, found (pathResolve (LoaderV1.basePath_of loader rootPath) rel))
          files)).1.
Proof.
  revert store logs logs'.
  induction files as [|rel files IH]; intros store logs logs'; [done|].
  cbn [foldl List.filter].
  destruct (found (pathResolve (LoaderV1.basePath_of loader rootPath) rel))
    eqn:Hfound.
  - cbn [foldl]. cbv zeta.
    destruct (LoaderV2.processImage _ store _ _ _ _ _) as [[store' o] l].
    apply IH.
  - unfold found in Hfound.
    destruct (stat (pathResolve (LoaderV1.basePath_of loader rootPath) rel))
      as [stats|msg] eqn:Hstat; [done|]. cbv zeta.
    rewrite (processImage_v2_stat_fails _ _ _ _ _ _ _ msg Hstat). apply IH.
Qed.

End LoadFailures.

(** X9. A file on which [stat] fails is isolated.  [processImage] ends in
    the outer [catch] with the error of [stat]: the store is left as it
    was and the one thing logged is that failure.  And the first pass of
    [load] goes on with the next file: it ends with the store it would end
    with had the glob not listed the files [stat] fails on.  So in both
    versions of the loader. *)
Theorem stat_failure_is_isolated
    {paths : PathApi} {host : Host} (loader : Loader) (rootPath : string) :
  (∀ filePath basePath store tagsToExtract excludeTags includeRawExif msg,
     stat filePath = Thrown msg →
     LoaderV1.processImage filePath store rootPath tagsToExtract excludeTags
       includeRawExif = (store, Failed msg, [LogFailed filePath msg]) ∧
     LoaderV2.processImage filePath store rootPath tagsToExtract excludeTags
       includeRawExif basePath
     = (store, Failed msg, [LogFailed filePath msg])) ∧
  (∀ files store,
     let listed :=
       List.filter
         (λ rel, found (pathResolve (LoaderV1.basePath_of loader rootPath) rel))
         files in
     (LoadV1.load loader rootPath (Normal files) store).1
     = (LoadV1.load loader rootPath (Normal listed) store).1 ∧
     (LoadV2.load loader rootPath (Normal files) store).1
     = (LoadV2.load loader rootPath (Normal listed) store).1).
Proof.
  split.
  - intros filePath basePath store tagsToExtract excludeTags includeRawExif
      msg Hstat. split.
    + by apply processImage_v1_stat_fails.
    + by apply processImage_v2_stat_fails.
  - intros files store listed. unfold LoadV1.load, LoadV2.load. cbv zeta.
    pose proof (load_v1_found loader rootPath files store) as H1.
    pose proof (load_v2_found loader rootPath files store) as H2.
    fold listed in H1, H2. split.
    + specialize (H1
        (if Nat.eqb (length files) 0
         then [LoadNoImages (LoaderV1.basePath_of loader rootPath)
                 (pattern (loader_imagesDir loader))] else [])
        (if Nat.eqb (length listed) 0
         then [LoadNoImages (LoaderV1.basePath_of loader rootPath)
                 (pattern (loader_imagesDir loader))] else [])).
      destruct (foldl _ _ files) as [store1 logs1].
      destruct (foldl _ _ listed) as [store2 logs2]. exact H1.
    + specialize (H2
        (if Nat.eqb (length files) 0
         then [LoadNoImages (LoaderV1.basePath_of loader rootPath)
                 (pattern (loader_imagesDir loader))] else [])
        (if Nat.eqb (length listed) 0
         then [LoadNoImages (LoaderV1.basePath_of loader rootPath)
                 (pattern (loader_imagesDir loader))] else [])).
      destruct (foldl _ _ files) as [store1 logs1].
      destruct (foldl _ _ listed) as [store2 logs2]. exact H2.
Qed.

(** On a host where [gone.jpg] is gone: the call on it fails with [ENOENT]
    and the stored record of another file stays; a first pass over
    [gone.jpg] and [photo.jpg] ends as one over [photo.jpg]. *)
Lemma stat_failure_missing_file :
  (LoaderV1.processImage (paths := Posix.api) (host := Scenarios.missing)
     "/proj/src/content/images/gone.jpg"
     (Samples.stored "other.jpg" "2023-01-01T00:00:00.000Z")
     "/proj" None ∅ false
   = (Samples.stored "other.jpg" "2023-01-01T00:00:00.000Z", Failed "ENOENT",
      [LogFailed "/proj/src/content/images/gone.jpg" "ENOENT"])) ∧
  (LoadV2.load (paths := Posix.api) (host := Scenarios.missing)
     (createExifLoader Samples.no_options) "/proj"
     (Normal ["gone.jpg"; "photo.jpg"]) ∅).1
  = (LoadV2.load (paths := Posix.api) (host := Scenarios.missing)
       (createExifLoader Samples.no_options) "/proj"
       (Normal ["photo.jpg"]) ∅).1.
Proof.
  pose proof (stat_failure_is_isolated (paths := Posix.api)
                (host := Scenarios.missing)
                (createExifLoader Samples.no_options) "/proj")
    as [Hcall Hload].
  split.
  - apply (Hcall "/proj/src/content/images/gone.jpg" None
             (Samples.stored "other.jpg" "2023-01-01T00:00:00.000Z")
             None ∅ false "ENOENT"). reflexivity.
  - apply (Hload ["gone.jpg"; "photo.jpg"] ∅).
Defined.

(** ** The importer's results *)

Lemma leading_slash (p : string) :
  startsWith p "/" = true → "/" ++ drop_chars 1 p = p.
Proof.
  destruct p as [|c p]; [done|]. unfold startsWith.
  change (String.prefix "/" (String c p))
    with (if ascii_dec "/"%char c then String.prefix "" p else false).
  by destruct (ascii_dec "/"%char c) as [<-|].
Qed.

Section ImporterResults.
Context {Data ImageMetadata : Type}.
Context (srcPath : Data → option string).
Context (files : string → option (completion (option ImageMetadata))).
Context {paths : PathApi} (cwd : string).

Lemma import_entry_v1_keeps (e : Entry Data) :
  ∃ i, (ImporterV1.import_entry srcPath files e).2 = with_import e i.
Proof.
  unfold ImporterV1.import_entry. cbv zeta.
  destruct (falsy _); [by eexists|].
  destruct (import_module _ _). by eexists.
Qed.

Lemma import_entry_v2_keeps (e : Entry Data) :
  ∃ i, (ImporterV2.import_entry files cwd e).2 = with_import e i.
Proof.
  unfold ImporterV2.import_entry. cbv zeta.
  destruct (falsy _); [by eexists|].
  destruct (negb _); [by eexists|].
  destruct (import_module _ _). by eexists.
Qed.

Lemma results_keep_entries (f : Entry Data →
                                list warning *
                                ImportedExifCollectionEntry Data ImageMetadata)
    (entries : list (Entry Data)) :
  (∀ e, ∃ i, (f e).2 = with_import e i) →
  imported_id <$> ((λ e, (f e).2) <$> entries) = id <$> entries ∧
  imported_collection <$> ((λ e, (f e).2) <$> entries)
    = collection <$> entries ∧
  imported_data <$> ((λ e, (f e).2) <$> entries) = data <$> entries.
Proof.
  intros Hf. induction entries as [|e entries (IH1 & IH2 & IH3)]; [done|].
  rewrite !fmap_cons, IH1, IH2, IH3. by destruct (Hf e) as [i ->].
Qed.

End ImporterResults.

(** X17. Whenever an importer returns, its results answer the entries one for
    one and in order, each with its entry's [id], [collection] and [data];
    and it returns or raises the hard failure, nothing else: an image
    module that fails to load or is missing never fails the call. *)
Theorem importer_results_follow_entries
    {Data ImageMetadata : Type} (srcPath : Data → option string)
    (files : string → option (completion (option ImageMetadata)))
    {paths : PathApi} (cwd : string) (entries : list (Entry Data)) :
  ((ImporterV1.imageImporter srcPath files entries).2 = Thrown ONLY_UNDER_SRC ∨
   ∃ results,
     (ImporterV1.imageImporter srcPath files entries).2 = Normal results ∧
     imported_id <$> results = id <$> entries ∧
     imported_collection <$> results = collection <$> entries ∧
     imported_data <$> results = data <$> entries) ∧
  ((ImporterV2.imageImporter files cwd (ImporterV2.Many entries)).2
     = Thrown ONLY_UNDER_SRC ∨
   ∃ results,
     (ImporterV2.imageImporter files cwd (ImporterV2.Many entries)).2
       = Normal (ImporterV2.Array results) ∧
     imported_id <$> results = id <$> entries ∧
     imported_collection <$> results = collection <$> entries ∧
     imported_data <$> results = data <$> entries).
Proof.
  split.
  - unfold ImporterV1.imageImporter. cbv zeta.
    destruct (length (filter _ entries) =? length entries)%nat;
      [by left|right].
    unfold map_warn. simpl. eexists. split; [done|].
    apply results_keep_entries, import_entry_v1_keeps.
  - unfold ImporterV2.imageImporter. cbv zeta. simpl.
    destruct (length (filter _ entries) =? length entries)%nat;
      [by left|right].
    unfold map_warn. simpl. eexists. split; [done|].
    apply results_keep_entries, import_entry_v2_keeps.
Qed.

(** X18. Which image an importable entry gets.  The importer keyed on
    [srcPath] looks a path with a leading slash up as it stands and any
    other below [/src/]; the revised one looks up the entry's file path
    made relative to the project's [src].  The result is the module's
    default export when the glob map has an importer there and the import
    succeeds, and null otherwise. *)
Theorem importer_lookup_path
    {Data ImageMetadata : Type} (srcPath : Data → option string)
    (files : string → option (completion (option ImageMetadata)))
    {paths : PathApi} (cwd : string) (e : Entry Data) :
  (∀ p, srcPath (data e) = Some p → p ≠ "" →
     defaultImport (ImporterV1.import_entry srcPath files e).2
     = match files (if startsWith p "/" then p else "/src/" ++ p) with
       | Some (Normal default_) => default_
       | _ => None
       end) ∧
  (∀ p, filePath e = Some p → p ≠ "" → ImporterV2.insideSrc cwd p = true →
     defaultImport (ImporterV2.import_entry files cwd e).2
     = match files ("/src/" ++ replace_backslashes
                                 (relative (pathResolve cwd "src")
                                           (pathResolve cwd p))) with
       | Some (Normal default_) => default_
       | _ => None
       end).
Proof.
  split.
  - intros p Hp Hne. unfold ImporterV1.import_entry. cbv zeta. rewrite Hp.
    change (falsy (Some p)) with (String.eqb p "").
    rewrite (proj2 (String.eqb_neq _ _) Hne).
    change (default "" (Some p)) with p.
    destruct (startsWith p "/") eqn:Hslash.
    + rewrite (leading_slash p Hslash). unfold import_module.
      by destruct (files p) as [[d|err]|].
    + unfold import_module. by destruct (files ("/src/" ++ p)) as [[d|err]|].
  - intros p Hp Hne Hin. unfold ImporterV2.import_entry. cbv zeta.
    rewrite Hp.
    change (falsy (Some p)) with (String.eqb p "").
    rewrite (proj2 (String.eqb_neq _ _) Hne).
    change (default "" (Some p)) with p. rewrite Hin.
    unfold import_module. by destruct (files _) as [[d|err]|].
Qed.

Lemma importer_lookup_path_photo :
  defaultImport
    (ImporterV1.import_entry (λ d, d) Samples.glob Samples.entry_under_src).2
  = Some "photo-module".
Proof.
  apply (proj1 (importer_lookup_path (λ d : option string, d) Samples.glob
                  (paths := Posix.api) "/proj" Samples.entry_under_src)
               "content/images/photo.jpg"); done.
Defined.

(** ** The reader's values among all values

    On the values of the reader, on records without a field named
    [__proto__] and on selections that name no member of [Object.prototype]
    the record lacks, the definitions of [Any] are those the properties
    above are stated on. *)

Lemma widen_member (props : list (string * value)) (name : string) :
  (fix member (props : list (string * value)) (name : string) : jsvalue :=
     match props with
     | [] => JUndefined
     | (k, v) :: rest =>
         if String.eqb k name then Any.widen v else member rest name
     end) props name = Any.widen (get props name).
Proof.
  induction props as [|[k v] rest IH]; simpl; [done|].
  by destruct (String.eqb k name).
Qed.

Lemma toSerializable_widen (v : value) :
  Any.toSerializable (Any.widen v) = Utils.toSerializable v.
Proof.
  induction v as [ | | s | x | b | iso text | elems IH
                 | toDate valueOf props text] using value_array_ind;
    try reflexivity.
  - simpl. assert (mapM Any.toSerializable (map Any.widen elems)
                   = mapM Utils.toSerializable elems) as ->; [|done].
    induction IH as [|x xs Hx _ IHxs]; [done|].
    simpl. by rewrite Hx, IHxs.
  - cbn [Any.widen Any.toSerializable Utils.toSerializable]. rewrite !widen_member.
    destruct toDate as [[e|d]|]; simpl.
    + done.
    + by destruct d as [ | | | | |[iso|] ? | | ].
    + destruct valueOf as [[|p]|]; simpl.
      * destruct (get props "num"); try done; simpl.
        by destruct (get props "den").
      * destruct p; try done; simpl;
          (destruct (get props "num"); try done; simpl;
           by destruct (get props "den")).
      * destruct (get props "num"); try done; simpl.
        by destruct (get props "den").
Qed.

Lemma benign_widen (v : value) : Any.benign (Any.widen v) = true.
Proof.
  induction v as [ | | s | x | b | iso text | elems IH
                 | toDate valueOf props text] using value_array_ind;
    try reflexivity.
  - simpl. induction IH as [|x xs Hx _ IHxs]; [done|].
    simpl. by rewrite Hx, IHxs.
  - simpl. by destruct valueOf as [[|p]|].
Qed.

Lemma nullish_widen (v : value) : Any.nullish (Any.widen v) = nullish v.
Proof. by destruct v. Qed.

Lemma determineTagsToExtract_widen (presets tags : list string) :
  (∀ preset, preset ∈ presets → EXIF_PRESET_MAPPINGS !! preset = None →
             Any.Object_prototype !! preset = None) →
  Any.determineTagsToExtract presets tags
  = Normal (determineTagsToExtract presets tags).
Proof.
  intros Hgood. unfold Any.determineTagsToExtract, determineTagsToExtract.
  destruct (add_preset_fold ∅ presets)
    as [(p & Hin & Hp & [inherited Hinh] & _)|[_ ->]]; [|done].
  by rewrite (Hgood p Hin Hp) in Hinh.
Qed.

Section Widen.
Context (tags : gmap string value) (excludeTags : gset string).
Hypothesis no_own_proto : tags !! "__proto__" = None.

Lemma all_loop_widen (data0 : gmap string field) :
  map_fold
    (λ tagName tagValue (acc : completion (gmap string field)),
       data ← acc;
       if negb (Any.nullish tagValue) && bool_decide (tagName ∉ excludeTags)
       then v ← Any.toSerializable tagValue;
            Normal (Any.set_property tagName (Scalar v) data)
       else Normal data)
    (Normal data0) (Any.widen <$> tags)
  = map_fold
      (λ tagName tagValue (acc : completion (gmap string field)),
         data ← acc;
         if negb (nullish tagValue) && bool_decide (tagName ∉ excludeTags)
         then v ← toSerializable tagValue;
              Normal (<[tagName := Scalar v]> data)
         else Normal data)
      (Normal data0) tags.
Proof using no_own_proto.
  destruct (all_loop excludeTags data0 tags) as (data & -> & Hdata).
  pose proof (any_all_loop excludeTags data0 (Any.widen <$> tags)) as Hany.
  destruct (map_fold _ _ (Any.widen <$> tags)) as [data'|e].
  - f_equal. apply map_eq. intros k.
    rewrite (proj2 Hany), Hdata, lookup_fmap.
    destruct (tags !! k) as [v|] eqn:Hv; simpl; [|done].
    rewrite nullish_widen, toSerializable_widen, toSerializable_serialized.
    destruct (String.eqb_spec k "__proto__") as [->|_]; [congruence|].
    by rewrite andb_true_r.
  - destruct Hany as (k & v & Hk & _ & _ & He). rewrite lookup_fmap in Hk.
    destruct (tags !! k) as [v0|]; simpl in Hk; [|done]. injection Hk as <-.
    by rewrite toSerializable_widen, toSerializable_serialized in He.
Qed.

Lemma raw_loop_widen :
  map_fold
    (λ tagName tagValue (acc : completion (gmap string sval)),
       rawExif ← acc;
       if negb (Any.nullish tagValue)
       then v ← Any.toSerializable tagValue;
            Normal (Any.set_property tagName v rawExif)
       else Normal rawExif)
    (Normal ∅) (Any.widen <$> tags)
  = map_fold
      (λ tagName tagValue (acc : completion (gmap string sval)),
         rawExif ← acc;
         if negb (nullish tagValue)
         then v ← toSerializable tagValue;
              Normal (<[tagName := v]> rawExif)
         else Normal rawExif)
      (Normal ∅) tags.
Proof using no_own_proto.
  destruct (raw_loop tags) as (rawExif & -> & Hraw).
  pose proof (any_raw_loop (Any.widen <$> tags)) as Hany.
  destruct (map_fold _ _ (Any.widen <$> tags)) as [rawExif'|e].
  - f_equal. apply map_eq. intros k.
    rewrite (proj2 Hany), Hraw, lookup_fmap.
    destruct (tags !! k) as [v|] eqn:Hv; simpl; [|done].
    rewrite nullish_widen, toSerializable_widen, toSerializable_serialized.
    destruct (String.eqb_spec k "__proto__") as [->|_]; [congruence|].
    rewrite andb_true_r. by destruct (nullish v).
  - destruct Hany as (k & v & Hk & _ & He). rewrite lookup_fmap in Hk.
    destruct (tags !! k) as [v0|]; simpl in Hk; [|done]. injection Hk as <-.
    by rewrite toSerializable_widen, toSerializable_serialized in He.
Qed.

Lemma get_property_widen (k : string) :
  (tags !! k = None → Any.Object_prototype !! k = None) →
  Any.get_property (Any.widen <$> tags) k
  = Any.widen (default VUndefined (tags !! k)).
Proof.
  intros Hk. unfold Any.get_property. rewrite lookup_fmap.
  destruct (tags !! k) as [v|]; simpl; [done|]. by rewrite Hk.
Qed.

Lemma selected_loop_widen (data0 : gmap string field) (X : gset string) :
  (∀ k, k ∈ X → k ∉ excludeTags → tags !! k = None →
        Any.Object_prototype !! k = None) →
  set_fold
    (λ tagName (acc : completion (gmap string field)),
       data ← acc;
       if bool_decide (tagName ∉ excludeTags) then
         if negb (Any.nullish (Any.get_property (Any.widen <$> tags) tagName))
         then v ← Any.toSerializable
                    (Any.get_property (Any.widen <$> tags) tagName);
              Normal (Any.set_property tagName (Scalar v) data)
         else Normal data
       else Normal data)
    (Normal data0) X
  = set_fold
      (λ tagName (acc : completion (gmap string field)),
         data ← acc;
         if bool_decide (tagName ∉ excludeTags) then
           if negb (nullish (default VUndefined (tags !! tagName)))
           then v ← toSerializable (default VUndefined (tags !! tagName));
                Normal (<[tagName := Scalar v]> data)
           else Normal data
         else Normal data)
      (Normal data0) X.
Proof using no_own_proto.
  intros Hplain.
  destruct (selected_loop_lookup tags excludeTags data0 X)
    as (data & -> & Hdata).
  pose proof (any_selected_loop (Any.widen <$> tags) excludeTags data0 X)
    as Hany.
  destruct (set_fold _ _ X) as [data'|e].
  - f_equal. apply map_eq. intros k. rewrite (proj2 Hany), Hdata.
    destruct (bool_decide (k ∈ X)) eqn:Hsel; [|done].
    destruct (bool_decide (k ∉ excludeTags)) eqn:Hex; [|done]. simpl.
    apply bool_decide_eq_true in Hsel, Hex.
    rewrite get_property_widen by by apply Hplain.
    rewrite nullish_widen, toSerializable_widen, toSerializable_serialized.
    destruct (String.eqb_spec k "__proto__") as [->|_];
      [|by rewrite andb_true_r].
    by rewrite no_own_proto.
  - destruct Hany as (k & Hsel & Hex & _ & He).
    rewrite get_property_widen in He by by apply Hplain.
    by rewrite toSerializable_widen, toSerializable_serialized in He.
Qed.

Lemma buildImageData_widen
    (fileName mtime : string) (fileSize : float)
    (tagsToExtract : option (gset string)) (includeRawExif : bool) :
  (∀ X k, tagsToExtract = Some X → k ∈ X → k ∉ excludeTags →
          tags !! k = None → Any.Object_prototype !! k = None) →
  Any.buildImageData (Any.widen <$> tags) fileName mtime fileSize
    tagsToExtract excludeTags includeRawExif
  = buildImageData tags fileName mtime fileSize tagsToExtract excludeTags
      includeRawExif.
Proof using no_own_proto.
  intros Hplain. unfold Any.buildImageData, buildImageData. cbv zeta.
  rewrite raw_loop_widen. destruct tagsToExtract as [X|].
  - rewrite selected_loop_widen; [done|]. intros k. by apply Hplain.
  - by rewrite all_loop_widen.
Qed.

End Widen.
